(** * AI ORM generator: the request pipeline of [app/api.py],
      [app/ai_orm.py] and [services/ai_service.py]

    The development embeds the four pieces of the service:
    - Python text ([str]) as lists of Unicode code points, with [str.strip];
    - the part of [re] that the fence-stripping pattern of [run_chat] uses
      (a backtracking matcher and [re.sub]);
    - the prompt f-string of [generate_filters_with_ai];
    - the endpoint, the orchestrator and the LLM client as computations in a
      small exception-and-log monad over an arbitrary provider. *)

From Stdlib Require Import String Ascii List NArith ZArith Lia Bool.
Import ListNotations.

(* ================================================================== *)
(** * Python text *)
(* ================================================================== *)

Module Py.

(** A Python [str] is a sequence of code points. *)
Definition char := N.
Definition str := list char.

Definition LF : char := 10%N.
Definition backtick : char := 96%N.
Definition dquote : char := 34%N.

(** [str.isspace] on one code point (CPython's [Py_UNICODE_ISSPACE]); the
    class [\s] of [re] on a [str] pattern is the same set. *)
Definition isspace (c : char) : bool :=
  ((9 <=? c) && (c <=? 13) || (28 <=? c) && (c <=? 32)
   || (c =? 133) || (c =? 160) || (c =? 5760)
   || (8192 <=? c) && (c <=? 8202)
   || (c =? 8232) || (c =? 8233) || (c =? 8239) || (c =? 8287)
   || (c =? 12288))%N.

Fixpoint lstrip (s : str) : str :=
  match s with
  | [] => []
  | c :: t => if isspace c then lstrip t else s
  end.

Definition rstrip (s : str) : str := rev (lstrip (rev s)).

(** [s.strip()]: whitespace removed at both ends. *)
Definition strip (s : str) : str := rstrip (lstrip s).

(** [a == b] on [str]. *)
Fixpoint str_eqb (a b : str) : bool :=
  match a, b with
  | [], [] => true
  | x :: a', y :: b' => (x =? y)%N && str_eqb a' b'
  | _, _ => false
  end.

(** [s.startswith(p)], also returning what follows the prefix. *)
Fixpoint strip_prefix (p s : str) : option str :=
  match p, s with
  | [], _ => Some s
  | x :: p', y :: s' => if (x =? y)%N then strip_prefix p' s' else None
  | _ :: _, [] => None
  end.

(** Source text is UTF-8; a literal denotes the decoded code points. *)
Fixpoint decode_utf8 (bs : list N) : str :=
  match bs with
  | [] => []
  | b0 :: t0 =>
    if (b0 <? 128)%N then b0 :: decode_utf8 t0
    else
      match t0 with
      | [] => []
      | b1 :: t1 =>
        if (b0 <? 224)%N
        then ((b0 mod 32) * 64 + b1 mod 64)%N :: decode_utf8 t1
        else
          match t1 with
          | [] => []
          | b2 :: t2 =>
            if (b0 <? 240)%N
            then ((b0 mod 16) * 4096 + (b1 mod 64) * 64 + b2 mod 64)%N
                   :: decode_utf8 t2
            else
              match t2 with
              | [] => []
              | b3 :: t3 =>
                ((b0 mod 8) * 262144 + (b1 mod 64) * 4096
                 + (b2 mod 64) * 64 + b3 mod 64)%N :: decode_utf8 t3
              end
          end
      end
  end.

Definition lit (s : string) : str :=
  decode_utf8 (map N_of_ascii (list_ascii_of_string s)).

End Py.

Import Py.

(* ================================================================== *)
(** * The fragment of [re] used by [run_chat] *)
(* ================================================================== *)

Module Re.

(** Pattern syntax.  [Star] is restricted to a one-character class, which is
    all the pattern needs and keeps the matcher structurally recursive. *)
Inductive regex : Type :=
| Lit (s : str)                    (* literal text *)
| Bol                              (* ^ under re.MULTILINE *)
| Eol                              (* $ under re.MULTILINE *)
| Star (cls : char -> bool)        (* greedy cls* *)
| Opt (r : regex)                  (* greedy (?:r)? *)
| Seq (r1 r2 : regex)
| Alt (r1 r2 : regex).             (* r1|r2, r1 tried first *)

(** A position in the subject: the character before it ([None] at the start
    of the subject), the text from it on, and how many characters the
    current match attempt has consumed. *)
Record cursor : Type := Cursor {
  before : option char;
  ahead : str;
  taken : nat
}.

(** [^] with MULTILINE: at the start of the subject or just after a line feed. *)
Definition at_bol (c : cursor) : bool :=
  match before c with
  | None => true
  | Some x => (x =? LF)%N
  end.

(** [$] with MULTILINE: at the end of the subject or just before a line feed. *)
Definition at_eol (c : cursor) : bool :=
  match ahead c with
  | [] => true
  | x :: _ => (x =? LF)%N
  end.

Fixpoint literal (s : str) (c : cursor) : option cursor :=
  match s with
  | [] => Some c
  | x :: s' =>
    match ahead c with
    | y :: t =>
      if (x =? y)%N then literal s' (Cursor (Some y) t (S (taken c))) else None
    | [] => None
    end
  end.

(** Greedy repetition: the longest run first, then each shorter one. *)
Fixpoint star (cls : char -> bool) (b : option char) (s : str) (n : nat)
  : list cursor :=
  match s with
  | x :: t =>
    if cls x then star cls (Some x) t (S n) ++ [Cursor b s n]
    else [Cursor b s n]
  | [] => [Cursor b s n]
  end.

(** Every way [r] matches from [c], in the order a backtracking matcher
    tries them. *)
Fixpoint matches (r : regex) (c : cursor) : list cursor :=
  match r with
  | Lit s => match literal s c with Some c' => [c'] | None => [] end
  | Bol => if at_bol c then [c] else []
  | Eol => if at_eol c then [c] else []
  | Star cls => star cls (before c) (ahead c) (taken c)
  | Opt r1 => matches r1 c ++ [c]
  | Seq r1 r2 => flat_map (matches r2) (matches r1 c)
  | Alt r1 r2 => matches r1 c ++ matches r2 c
  end.

(** The match found at one position: the length of the first success. *)
Definition first_taken (l : list cursor) : option nat :=
  match l with
  | c :: _ => Some (taken c)
  | [] => None
  end.

Definition match_at (r : regex) (b : option char) (s : str) : option nat :=
  first_taken (matches r (Cursor b s 0)).

(** [re.sub(r, repl, s)] for a literal [repl]: one scan from left to right
    over the subject; at each position not inside an earlier match the
    pattern is tried, a non-empty match is replaced and skipped, and every
    other character is copied.  [skip] counts the characters of the current
    match still to drop.  The pattern of [run_chat] never matches the empty
    text (each alternative contains the fence), so how [re.sub] treats empty
    matches does not arise; here such a match changes nothing. *)
Fixpoint sub_from (r : regex) (repl : str) (b : option char) (s : str)
  (skip : nat) : str :=
  match s with
  | [] => []
  | x :: t =>
    match skip with
    | S k => sub_from r repl (Some x) t k
    | O =>
      match match_at r b s with
      | Some (S k) => repl ++ sub_from r repl (Some x) t k
      | _ => x :: sub_from r repl (Some x) t 0
      end
    end
  end.

Definition sub (r : regex) (repl s : str) : str := sub_from r repl None s 0.

End Re.

Import Re.

(* ================================================================== *)
(** * Sanitization of the model's reply ([run_chat], after the await) *)
(* ================================================================== *)

Module Sanitize.

Definition fence : str := [backtick; backtick; backtick].
Definition python_tag : str := lit "python".

(** The raw pattern of [run_chat], compiled with [re.MULTILINE]:
    [^```(?:python)?\s*|\s*```$]. *)
Definition fence_re : regex :=
  Alt (Seq Bol (Seq (Lit fence) (Seq (Opt (Lit python_tag)) (Star isspace))))
      (Seq (Star isspace) (Seq (Lit fence) Eol)).

(** The value [run_chat] returns for the reply [raw]: the trimmed reply with
    every match of the pattern replaced by the empty text, trimmed again. *)
Definition sanitize (raw : str) : str :=
  strip (sub fence_re [] (strip raw)).

(** ** What the pattern matches at one position, in closed form

    These functions are not part of the program: they describe the result of
    [match_at fence_re], and are proved equal to it below. *)

(** Length of the whitespace at the start of [s]. *)
Fixpoint ws_run (s : str) : nat :=
  match s with
  | [] => 0
  | c :: t => if isspace c then S (ws_run t) else 0
  end.

Definition bol (b : option char) : bool :=
  match b with
  | None => true
  | Some x => (x =? LF)%N
  end.

Definition eol (s : str) : bool :=
  match s with
  | [] => true
  | x :: _ => (x =? LF)%N
  end.

(** First alternative: a fence at the start of a line, its optional tag and
    all the whitespace that follows. *)
Definition open_fence (b : option char) (s : str) : option nat :=
  if bol b then
    match strip_prefix fence s with
    | Some r =>
      match strip_prefix python_tag r with
      | Some r' => Some (3 + 6 + ws_run r')
      | None => Some (3 + ws_run r)
      end
    | None => None
    end
  else None.

(** Second alternative: all the whitespace here, then a fence that ends its
    line. *)
Definition close_fence (s : str) : option nat :=
  match strip_prefix fence (lstrip s) with
  | Some r => if eol r then Some (ws_run s + 3) else None
  | None => None
  end.

Definition fence_match (b : option char) (s : str) : option nat :=
  match open_fence b s with
  | Some n => Some n
  | None => close_fence s
  end.

(** ** Vocabulary of the statements about replies *)

(** [p in s] *)
Fixpoint contains (p s : str) : bool :=
  match strip_prefix p s with
  | Some _ => true
  | None =>
    match s with
    | [] => false
    | _ :: t => contains p t
    end
  end.

(** The character before the position reached by reading [s] from a position
    that has [b] before it. *)
Fixpoint last_or (b : option char) (s : str) : option char :=
  match s with
  | [] => b
  | x :: t => last_or (Some x) t
  end.

Definition starts_with_space (s : str) : bool :=
  match s with
  | [] => false
  | c :: _ => isspace c
  end.

Definition ends_with_space (s : str) : bool :=
  match last_or None s with
  | None => false
  | Some c => isspace c
  end.

(** Clean text: no fence marker and no whitespace around it. *)
Definition clean (s : str) : bool :=
  negb (contains fence s) && negb (starts_with_space s)
  && negb (ends_with_space s).

(** Plain text: some text without any backtick that neither starts nor ends
    with whitespace; it may span several lines. *)
Definition plain (s : str) : bool :=
  match s with
  | [] => false
  | _ :: _ =>
    negb (existsb (N.eqb backtick) s) && negb (starts_with_space s)
    && negb (ends_with_space s)
  end.

(** A reply with a fenced block in its middle: text, a line holding the
    opening fence (with the python tag or bare), the block, a line holding
    the closing fence, text. *)
Definition fenced_reply (tagged : bool) (above block below : str) : str :=
  above ++ LF :: fence ++ (if tagged then python_tag else []) ++
  LF :: block ++ LF :: fence ++ LF :: below.

(** A reply with an inner line that starts with a fence marker (tagged or
    bare) and goes on with text. *)
Definition line_opened_by_fence (tagged : bool) (above below : str) : str :=
  above ++ LF :: fence ++ (if tagged then python_tag else []) ++ below.

(** A reply with an inner line that holds text and ends with a fence
    marker. *)
Definition line_closed_by_fence (above below : str) : str :=
  above ++ fence ++ LF :: below.

End Sanitize.

Import Sanitize.

(* ================================================================== *)
(** * The prompt of [generate_filters_with_ai] *)
(* ================================================================== *)

Module Prompt.

(** The parts of an f-string: literal text, or a replacement field holding a
    [str], formatted with an empty format specification (the value itself). *)
Inductive part : Type :=
| Text (s : str)
| Field (value : str).

Definition render (p : part) : str :=
  match p with
  | Text s => s
  | Field v => v
  end.

Definition fstring (parts : list part) : str := concat (map render parts).

(** [sep.join(xs)] *)
Fixpoint join (sep : str) (xs : list str) : str :=
  match xs with
  | [] => []
  | x :: rest =>
    match rest with
    | [] => x
    | _ :: _ => x ++ sep ++ join sep rest
    end
  end.

(** Lines 17 to 139 of [app/ai_orm.py]: the text of the f-string before its
    last two lines.  Each line is cut at its double quotes, so a line is its
    pieces joined by the quote character. *)
Definition instruction_lines : list (list string) := [
  ["    You are a Django ORM query generator. Convert the given natural language query into a valid **single-line** Django ORM call."];
  [EmptyString];
  ["MODEL STRUCTURE:"];
  ["CandidateProfile.objects.filter("];
  ["    user__first_name__icontains=…,"];
  ["    dob__exact=… | dob__gt=… | dob__gte=… | dob__lt=… | dob__lte=…,"];
  ["    gender='male' | 'female' | 'other' | 'transgender',  # exact only"];
  ["    user__email__icontains=…,"];
  ["    user__phone__icontains=…,"];
  ["    permanent_address_district__icontains=…,"];
  ["    college__name__icontains=…,"];
  ["    college__district__icontains=…,"];
  ["    college__affiliated_university__icontains=…,"];
  ["    college__category__icontains=…,"];
  ["    college__branch__icontains=…,"];
  ["    college__type__icontains=…,"];
  ["    year_of_passout__icontains=…,"];
  ["    medium__icontains=…,"];
  ["    mode_of_study__icontains=…,"];
  ["    stream__icontains=…,"];
  ["    certifications__name__icontains=…"];
  ["    placement_status= True | False"];
  [")"];
  [EmptyString];
  ["RULES:"];
  ["1. Return only: `CandidateProfile.objects.filter(...)` or with `.all()[:N]` or `.count()`."];
  ["2. Output must be a **single line**, with **no markdown**, **no extra text**, and **no quotes** around the call."];
  ["3. Use `icontains` for all text fields; use **exact match** for gender."];
  ["4. For `dob`, support filters: `exact`, `gt`, `gte`, `lt`, `lte`."];
  ["5. Convert number words to digits (e.g., "; "five"; " → 5)."];
  ["6. If a specific number of students is mentioned (e.g., "; "top 5"; "), use `.all()[:N]`."];
  ["7. If the query asks for a count (e.g., "; "how many students"; "), return `.count()`."];
  ["8. If any **skill**, **course**, **certifications**, or **subject** is mentioned (e.g., "; "Python"; ", "; "Deep Learning"; "), match only using:"];
  ["   → `certifications__name__icontains='X'`"];
  ["9. For location mentions (e.g., "; "students in Chennai"; "), match using:"];
  ["   → `permanent_address_district__icontains='Chennai'`"];
  ["10. **STRICT Q() usage rules:**"];
  ["    - Always place **all Q(...) conditions first** inside `.filter(...)`, before any normal kwargs."];
  ["    - Combine OR conditions for repeated fields using Q objects."];
  ["    - Example: If multiple values for same field (e.g., multiple districts), use:"];
  ["      `Q(permanent_address_district__icontains='A') | Q(permanent_address_district__icontains='B')`"];
  ["    - Combine multiple Q expressions properly using `|` or `&`."];
  ["    - Do NOT repeat the same keyword argument in `.filter(...)`."];
  [EmptyString];
  ["SPECIAL CASES:"];
  ["- Engineering Candidates:  "];
  ["  → `college__type__icontains='engineering'`"];
  ["- Polytechnic Candidates:  "];
  ["  → `college__type__icontains='polytechnic'`"];
  ["- ITI Candidates:  "];
  ["  → `college__type__icontains='iti'`"];
  ["- Arts and Science or Arts & Science:  "];
  ["  → `college__type__icontains='arts'`"];
  ["- Gender:"];
  ["  - Male → `gender='male'`"];
  ["  - Female → `gender='female'`"];
  ["  - Other → `gender='other'`"];
  ["  - Transgender → `gender='transgender'`"];
  ["  "];
  ["PLACEMENT STATUS RULE:"];
  ["- By default, **always include `placement_status=False`** in the filter."];
  ["- If the query refers to "; "experienced"; ", "; "working"; ", "; "already placed"; ", "; "got a job"; ", "; "employed"; ", etc., "];
  ["  then instead use `placement_status=True`."];
  ["  "];
  ["CERTIFICATION RULE (IMPORTANT)"];
  ["When matching skills, courses, subjects, or certifications:"];
  ["- ALWAYS use:"];
  ["    certifications__name__icontains='X', certifications__is_uploaded_by_nm=True"];
  ["- Never match certifications where is_uploaded_by_nm=False"];
  ["- Candidate should be INCLUDED if ANY certification with is_uploaded_by_nm=True matches"];
  ["- Non-NM certifications must never be used in filtering."];
  [EmptyString];
  ["Examples of correct use:"];
  ["    certifications__name__icontains='python', certifications__is_uploaded_by_nm=True"];
  ["    Q(certifications__name__icontains='gen ai', certifications__is_uploaded_by_nm=True)"];
  [EmptyString];
  [EmptyString];
  ["EXAMPLES:"];
  ["- "; "Find male candidates from 2025 passout batch taking Deep Learning"; "  "];
  ["  → CandidateProfile.objects.filter(certifications__name__icontains='Deep Learning', certifications__is_uploaded_by_nm=True, gender='male', year_of_passout__icontains='2025', placement_status=False)"];
  [EmptyString];
  ["- "; "Candidates from Chennai with Python skill"; "  "];
  ["  → CandidateProfile.objects.filter(certifications__name__icontains='Python', certifications__is_uploaded_by_nm=True, permanent_address_district__icontains='Chennai', placement_status=False)"];
  [EmptyString];
  ["- "; "Female engineering candidates in Coimbatore"; "  "];
  ["  → CandidateProfile.objects.filter(gender='female', college__type__icontains='engineering', permanent_address_district__icontains='Coimbatore', placement_status=False)"];
  [EmptyString];
  ["- "; "Female candidates from Chennai or Chengalpattu with IoT and PEB Design skills"; "  "];
  ["  → CandidateProfile.objects.filter(Q(permanent_address_district__icontains='Chennai') | Q(permanent_address_district__icontains='Chengalpattu'),Q(certifications__name__icontains='IoT',  certifications__is_uploaded_by_nm=True) | Q(certifications__name__icontains='PEB Design',  certifications__is_uploaded_by_nm=True),gender='female', placement_status=False)"];
  ["  "];
  ["- "; "Female engineering candidates in Coimbatore who are currently working"; EmptyString];
  ["  → CandidateProfile.objects.filter(gender='female', college__type__icontains='engineering', permanent_address_district__icontains='Coimbatore', placement_status=True)"];
  ["  "];
  ["- "; "எனக்கு சென்னையிலிருந்து பெண்கள் தேவை"; EmptyString];
  ["  → CandidateProfile.objects.filter(Q(permanent_address_district__icontains='Chennai'), gender='female', placement_status=False)"];
  [EmptyString];
  ["- "; "எனக்கு சென்னை மற்றும் செங்கல்பட்டில் இருந்து ஐடிஐ மாணவர்கள் வேண்டும்"; EmptyString];
  ["  → CandidateProfile.objects.filter(Q(permanent_address_district__icontains='Chennai') | Q(permanent_address_district__icontains='Chengalpattu'), college__type__icontains='iti', placement_status=False)"];
  [EmptyString];
  ["- "; "எனக்கு சென்னை மற்றும் செங்கல்பட்டில் இருந்து பாலிடெக்னிக் விண்ணப்பதாரர் தேவை"; "    "];
  ["  → CandidateProfile.objects.filter(Q(permanent_address_district__icontains='Chennai') | Q(permanent_address_district__icontains='Chengalpattu'), college__type__icontains='polytechnic', gender='female', placement_status=False)"];
  [EmptyString];
  ["- "; "எனக்கு ஈரோட்டில் இருந்து இன்ஜினியரிங் விண்ணப்பதாரர் தேவை"; EmptyString];
  ["  → CandidateProfile.objects.filter(gender='female', college__type__icontains='engineering', permanent_address_district__icontains='Erode', placement_status=False)"];
  [EmptyString];
  ["- I need Candidate who have certifications from industry 4.0"];
  ["  → CandidateProfile.objects.filter(Q(certifications__name__icontains='industry 4.0',  certifications__is_uploaded_by_nm=True) | Q(certifications__name__icontains='iot',  certifications__is_uploaded_by_nm=True) | Q(certifications__name__icontains='machine learning',  certifications__is_uploaded_by_nm=True))"];
  [" "];
  [" - I need male candidates in Coimbatore region who has studied industry 4.0 and passed out in 2024 and 2025 candidates"];
  ["  → CandidateProfile.objects.filter(Q(certifications__name__icontains='industry 4.0',  certifications__is_uploaded_by_nm=True) | Q(certifications__name__icontains='iot',  certifications__is_uploaded_by_nm=True) | Q(certifications__name__icontains='machine learning',  certifications__is_uploaded_by_nm=True),Q(year_of_passout__icontains='2024') | Q(year_of_passout__icontains='2025'),   gender='male',permanent_address_district__icontains='Coimbatore',placement_status=False)"];
  ["  "];
  ["- I need freshers from chennai who have done generative ai skills"];
  ["  → CandidateProfile.objects.filter(certifications__name__icontains='generative ai', certifications__is_uploaded_by_nm=True, permanent_address_district__icontains='chennai', placement_status=False)"];
  ["  "];
  ["- I need experienced candidates who has skill on generative ai"];
  ["  → CandidateProfile.objects.filter(certifications__name__icontains='generative ai', certifications__is_uploaded_by_nm=True, placement_status=True)"];
  ["  "];
  ["- I need Female working professionals with python and gen ai skills from chennai and karur"];
  ["  → CandidateProfile.objects.filter(Q(permanent_address_district__icontains='chennai') | Q(permanent_address_district__icontains='karur'),  Q(certifications__name__icontains='python',  certifications__is_uploaded_by_nm=True) |  Q(certifications__name__icontains='generative ai',  certifications__is_uploaded_by_nm=True), gender='female',placement_status=True)"];
  ["  "];
  ["- I Need experienced candidates with iot skills"];
  ["  → CandidateProfile.objects.filter(certifications__name__icontains='iot', certifications__is_uploaded_by_nm=True, placement_status=True)"];
  ["QUERY:"]
]%string.

Definition source_line (pieces : list string) : str :=
  join [dquote] (map lit pieces).

(** The literal text before the replacement field: the line break after the
    opening quotes, lines 17 to 139, and the quote that opens line 140. *)
Definition text_before_query : str :=
  LF :: join [LF] (map source_line instruction_lines) ++ [LF; dquote].

(** The literal text after the replacement field: the quote that closes line
    140, the end of that line and the empty line 141. *)
Definition text_after_query : str := [dquote; LF; LF].

(** The f-string bound to [prompt]; [user_query] is its only field. *)
Definition prompt (user_query : str) : str :=
  fstring [Text text_before_query; Field user_query; Text text_after_query].

(** The fixed text of the prompt that comes before the quoted query. *)
Definition instruction_block : str :=
  LF :: join [LF] (map source_line instruction_lines) ++ [LF].

End Prompt.

Import Prompt.

(* ================================================================== *)
(** * Exceptions, provider traffic and the computation monad *)
(* ================================================================== *)

Module Effects.

(** Values passed as extra keyword arguments. *)
Inductive pyval : Type :=
| PNone
| PBool (b : bool)
| PInt (z : Z)
| PStr (s : str).

(** A [dict] with [str] keys and values, in insertion order. *)
Definition dict := list (str * str).

(** The keyword arguments of one [chat.completions.create] call. *)
Record completion_request : Type := CompletionRequest {
  model : option str;
  messages : list dict;
  max_tokens : Z;
  extra_kwargs : list (string * pyval)
}.

(** The provider's reply, as far as [AIService.chat] reads it:
    [response.choices[0].message.content], where the content of a candidate
    may be [None]. *)
Record chat_message : Type := ChatMessage { content : option str }.
Record choice : Type := Choice { message : chat_message }.
Record chat_completion : Type := ChatCompletion { choices : list choice }.

(** How a completion request fails on the provider's side. *)
Inductive provider_failure : Type :=
| NetworkFailure
| AuthenticationFailure
| RateLimited
| MalformedResponse.

Inductive exn : Type :=
| HTTPException (status_code : Z) (detail : str)
| TypeError
| IndexError
| AttributeError
| OpenAIError                      (* the client cannot be configured *)
| ProviderError (f : provider_failure).

(** The calls of [chat.completions.create] made so far, each with its
    keyword arguments, oldest first.  What the provider library does below
    one call (its own retries) is not repository code and is not counted. *)
Definition traffic := list completion_request.

(** The provider is a black box: what it answers may depend on everything it
    was sent before and on the request. *)
Definition provider_t := traffic -> completion_request -> exn + chat_completion.

(** A computation either raises or returns, and leaves the traffic it caused
    either way. *)
Definition M (A : Type) : Type := traffic -> (exn + A) * traffic.

Definition ret {A : Type} (a : A) : M A := fun w => (inr a, w).

Definition raise {A : Type} (e : exn) : M A := fun w => (inl e, w).

Definition bind {A B : Type} (c : M A) (k : A -> M B) : M B :=
  fun w =>
    match c w with
    | (inl e, w') => (inl e, w')
    | (inr a, w') => k a w'
    end.

(** A step that returns or raises without any traffic. *)
Definition lift {A : Type} (r : exn + A) : M A := fun w => (r, w).

(** One request sent to the provider and awaited. *)
Definition send (provider : provider_t) (req : completion_request)
  : M chat_completion :=
  fun w => (provider w req, w ++ [req]).

End Effects.

Import Effects.

Notation "x <- c ;; k" := (bind c (fun x => k))
  (at level 61, c at next level, right associativity).

(* ================================================================== *)
(** * [services/ai_service.py] *)
(* ================================================================== *)

Module Service.

Record AsyncOpenAI : Type := MkAsyncOpenAI {
  api_key : option str;
  base_url : option str
}.

Record AIService : Type := MkAIService {
  model_name : option str;
  client : AsyncOpenAI
}.

(** [a or b] on optional text: [None] and the empty [str] are false. *)
Definition py_or (a b : option str) : option str :=
  match a with
  | Some (_ :: _) => a
  | _ => b
  end.

(** The names [create] already receives explicitly; repeating one of them in
    the extra keyword arguments is a [TypeError] at the call. *)
Definition explicit_keyword (k : string) : bool :=
  (String.eqb k "model" || String.eqb k "messages"
   || String.eqb k "max_tokens")%bool.

Definition keyword_clash (kwargs : list (string * pyval)) : bool :=
  existsb (fun kv => explicit_keyword (fst kv)) kwargs.

Section Process.

(** [os.getenv] over the environment the process was started with. *)
Variable getenv : string -> option str.
Variable provider : provider_t.

(** [AsyncOpenAI(api_key=..., base_url=...)], the constructor of the provider
    library's client: a key that is not passed is looked up under
    OPENAI_API_KEY, and without any key the constructor raises
    [OpenAIError]. *)
Definition new_AsyncOpenAI (api_key base_url : option str)
  : exn + AsyncOpenAI :=
  match api_key with
  | Some key => inr (MkAsyncOpenAI (Some key) base_url)
  | None =>
    match getenv "OPENAI_API_KEY" with
    | Some key => inr (MkAsyncOpenAI (Some key) base_url)
    | None => inl OpenAIError
    end
  end.

(** [AIService.__init__]: it fails when the client cannot be built. *)
Definition new_AIService (model_name : option str) (base_url : option str)
  : exn + AIService :=
  match new_AsyncOpenAI (getenv "AI_API_KEY")
                        (py_or base_url (getenv "AI_API_BASE_URL")) with
  | inl e => inl e
  | inr built => inr (MkAIService model_name built)
  end.

(** Whether the process can build its client at all. *)
Definition can_build_client : bool :=
  match new_AIService None None with
  | inl _ => false
  | inr _ => true
  end.

(** [AIService.chat] *)
Definition chat (self : AIService) (messages : list dict)
  (kwargs : list (string * pyval)) : M (option str) :=
  if keyword_clash kwargs then raise TypeError
  else
    response <- send provider
                  (CompletionRequest (model_name self) messages 1024 kwargs) ;;
    match choices response with
    | [] => raise IndexError
    | first :: _ => ret (content (message first))
    end.

End Process.

End Service.

Import Service.

(* ================================================================== *)
(** * [app/ai_orm.py] *)
(* ================================================================== *)

Module Orchestrator.

(** The one-message conversation: a dict with the keys role and content. *)
Definition user_message (prompt : str) : dict :=
  [(lit "role", lit "user"); (lit "content", prompt)].

Section Process.

Variable getenv : string -> option str.
Variable provider : provider_t.

(** The coroutine [run_chat], run to completion by [asyncio.run].  A reply
    without text ([None]) has no [strip]. *)
Definition run_chat (model : AIService) (prompt : str) : M str :=
  raw <- chat provider model [user_message prompt] [] ;;
  match raw with
  | None => raise AttributeError
  | Some raw => ret (sanitize raw)
  end.

(** The service is built first (line 8), then the prompt; a failure to
    build it ends the call before anything is sent. *)
Definition generate_filters_with_ai (user_query : str) : M str :=
  model <- lift (new_AIService getenv (getenv "AI_MODEL") None) ;;
  let prompt := prompt user_query in
  run_chat model prompt.

(** The one request an invocation for [user_query] sends. *)
Definition request_for (user_query : str) : completion_request :=
  CompletionRequest (getenv "AI_MODEL") [user_message (prompt user_query)]
                    1024 [].

End Process.

End Orchestrator.

Import Orchestrator.

(* ================================================================== *)
(** * [app/api.py] *)
(* ================================================================== *)

Module Api.

(** Modelled from the spec: [app/schemas.py] is not part of the sources.  The
    request body is a JSON object with the single text field [query], the
    response a JSON object with the single text field [orm]. *)
Record QueryRequest : Type := MkQueryRequest { query : str }.
Record QueryResponse : Type := MkQueryResponse { orm : str }.

(** Truth value of an optional header: [None] and the empty [str] are false. *)
Definition truthy (v : option str) : bool :=
  match v with
  | Some (_ :: _) => true
  | _ => false
  end.

(** [a == b] where each side is [None] or a [str]. *)
Definition opt_eqb (a b : option str) : bool :=
  match a, b with
  | None, None => true
  | Some x, Some y => str_eqb x y
  | _, _ => false
  end.

Definition invalid_credentials : exn :=
  HTTPException 401 (lit "Invalid credentials").

Section Module_globals.

(** [SECRET]: the environment variable BACKEND_SECRET, read once at import. *)
Variable SECRET : option str.
(** The function imported from [.ai_orm]. *)
Variable generate_filters_with_ai : str -> M str.

(** The handler of [POST /generate]; [backend_secret] is [None] when the
    request has no such header. *)
Definition generate (req : QueryRequest) (backend_secret : option str)
  : M QueryResponse :=
  if (negb (truthy backend_secret) || negb (opt_eqb backend_secret SECRET))%bool
  then raise invalid_credentials
  else
    orm <- generate_filters_with_ai (query req) ;;
    ret (MkQueryResponse orm).

End Module_globals.

End Api.

Import Api.

(* ================================================================== *)
(** * The running application ([app/main.py]) *)
(* ================================================================== *)

Module App.

Section Process.

Variable getenv : string -> option str.
Variable provider : provider_t.

(** [POST /api/generate] of the process: the handler with its module globals
    bound as the imports bind them. *)
Definition post_api_generate : QueryRequest -> option str -> M QueryResponse :=
  generate (getenv "BACKEND_SECRET")
           (Orchestrator.generate_filters_with_ai getenv provider).

End Process.

End App.

Import App.

(* ================================================================== *)
(** * Sample processes, used to run the model on concrete requests *)
(* ================================================================== *)

Module Sample.

Definition environment (name : string) : option str :=
  if String.eqb name "BACKEND_SECRET" then Some (lit "s3cret")
  else if String.eqb name "AI_MODEL" then Some (lit "gpt-4o-mini")
  else if String.eqb name "AI_API_KEY" then Some (lit "sk-test")
  else None.

(** The same process started with [BACKEND_SECRET=] (set, and empty). *)
Definition environment_with_empty_secret (name : string) : option str :=
  if String.eqb name "BACKEND_SECRET" then Some [] else environment name.

(** A process started without AI_API_KEY and without OPENAI_API_KEY. *)
Definition environment_without_key (name : string) : option str :=
  if String.eqb name "BACKEND_SECRET" then Some (lit "s3cret")
  else if String.eqb name "AI_MODEL" then Some (lit "gpt-4o-mini")
  else None.

(** The service that [environment] builds for the model gpt-4o-mini. *)
Definition service : AIService :=
  MkAIService (Some (lit "gpt-4o-mini")) (MkAsyncOpenAI (Some (lit "sk-test")) None).

Definition fenced_answer : str :=
  lit "```python" ++ LF :: lit "CandidateProfile.objects.filter(x=1)"
    ++ LF :: lit "```".

(** A provider that always answers with one candidate. *)
Definition answering : provider_t :=
  fun _ _ => inr (ChatCompletion [Choice (ChatMessage (Some fenced_answer))]).

(** A provider that refuses every request. *)
Definition rate_limiting : provider_t :=
  fun _ _ => inl (ProviderError RateLimited).

Definition question : str := lit "Female engineering candidates in Coimbatore".

End Sample.

(* ================================================================== *)
(** * Further vocabulary: shapes of replies, and who is let in *)
(* ================================================================== *)

Module Replies.

(** [small] is [big] with some characters left out, the others in order. *)
Inductive subsequence : str -> str -> Prop :=
| subsequence_nil : subsequence [] []
| subsequence_keep (x : char) (small big : str) :
    subsequence small big -> subsequence (x :: small) (x :: big)
| subsequence_drop (x : char) (small big : str) :
    subsequence small big -> subsequence small (x :: big).

(** Only whitespace (the empty text included). *)
Definition all_space (s : str) : bool := forallb isspace s.

(** Only whitespace that does not end a line. *)
Definition blanks (s : str) : bool :=
  forallb (fun c => isspace c && negb (c =? LF)%N) s.

(** A reply that is one fenced block and nothing else: an opening fence
    (tagged python or bare), the block and a closing fence, with any
    whitespace before, between and after them. *)
Definition wrapped_reply (tagged : bool) (ws1 ws2 block ws3 ws4 : str) : str :=
  ws1 ++ fence ++ (if tagged then python_tag else []) ++ ws2 ++ block
      ++ ws3 ++ fence ++ ws4.

(** A reply cut short: the opening fence and the block, no closing fence. *)
Definition opened_reply (tagged : bool) (ws1 ws2 block ws4 : str) : str :=
  ws1 ++ fence ++ (if tagged then python_tag else []) ++ ws2 ++ block ++ ws4.

(** A reply with the closing fence only. *)
Definition closed_reply (ws1 block ws3 ws4 : str) : str :=
  ws1 ++ block ++ ws3 ++ fence ++ ws4.

(** A reply with a fence marker inside a line: text and blanks before it,
    blanks and text after it. *)
Definition fence_inside_line (before_it sp1 sp2 after_it : str) : str :=
  before_it ++ sp1 ++ fence ++ sp2 ++ after_it.

(** The test of the handler, the other way round: the header is present,
    not empty, and equal to the configured secret. *)
Definition authorized (SECRET backend_secret : option str) : bool :=
  truthy backend_secret && opt_eqb backend_secret SECRET.

(** The scan of [sub_from] once more, recording for each character of the
    subject whether it lies inside a match and is therefore deleted. *)
Fixpoint deleted_from (r : regex) (b : option char) (s : str) (skip : nat)
  : list bool :=
  match s with
  | [] => []
  | x :: t =>
    match skip with
    | S k => true :: deleted_from r (Some x) t k
    | O =>
      match match_at r b s with
      | Some (S k) => true :: deleted_from r (Some x) t k
      | _ => false :: deleted_from r (Some x) t 0
      end
    end
  end.

Definition deleted (r : regex) (s : str) : list bool := deleted_from r None s 0.

(** [s] without the characters that are flagged. *)
Fixpoint remove (flags : list bool) (s : str) : str :=
  match flags, s with
  | true :: fs, _ :: t => remove fs t
  | false :: fs, x :: t => x :: remove fs t
  | _, _ => []
  end.

(** The [n] characters from position [i] on are all flagged. *)
Definition covered (flags : list bool) (i n : nat) : Prop :=
  exists front back,
    flags = front ++ repeat true n ++ back /\ length front = i.

(** One or two backticks and nothing else. *)
Definition short_ticks (u : str) : bool :=
  str_eqb u [backtick] || str_eqb u [backtick; backtick].

(** In the text [u] that stands before a marker, read from a position that
    has [b] before it: the marker does not begin one or two backticks after
    the start of its line.  (Otherwise the line starts with four or five
    backticks, and the marker overlaps the one that starts the line.) *)
Fixpoint overlap_free (b : option char) (u : str) : bool :=
  match u with
  | [] => true
  | x :: t => negb (bol b && short_ticks u) && overlap_free (Some x) t
  end.

(** A reply with two fenced blocks and inline code, in three pieces: the
    reply is [reply_head], a fence tagged python, [reply_middle], a bare
    fence, [reply_tail]. *)
Definition reply_head : str := lit "Use `Q`:" ++ [LF].
Definition reply_middle : str :=
  LF :: lit "A" ++ LF :: lit "```" ++ LF :: lit "or" ++ [LF].
Definition reply_tail : str :=
  LF :: lit "B" ++ LF :: lit "```" ++ LF :: lit "done".
Definition two_blocks_reply : str :=
  reply_head ++ fence ++ python_tag ++ reply_middle ++ fence ++ reply_tail.

(** A provider that answers without any candidate. *)
Definition answering_without_candidates : provider_t :=
  fun _ _ => inr (ChatCompletion []).

(** A provider whose only candidate is blank. *)
Definition answering_blank : provider_t :=
  fun _ _ => inr (ChatCompletion [Choice (ChatMessage (Some (lit "   ")))]).

End Replies.

Import Replies.

(* ================================================================== *)
(** * Facts about whitespace and [strip] *)
(* ================================================================== *)

Section Strip_facts.

Lemma isspace_LF : isspace LF = true.
Proof. reflexivity. Qed.

Lemma isspace_backtick : isspace backtick = false.
Proof. reflexivity. Qed.

Lemma lstrip_fixed (s : str) : starts_with_space s = false -> lstrip s = s.
Proof.
  destruct s as [|c t]; simpl; intros H; [reflexivity | now rewrite H].
Qed.

Lemma lstrip_starts (s : str) : starts_with_space (lstrip s) = false.
Proof.
  induction s as [|c t IH]; simpl; [reflexivity |].
  destruct (isspace c) eqn:E; [exact IH | simpl; exact E].
Qed.

Lemma lstrip_suffix (s : str) : exists w, s = w ++ lstrip s.
Proof.
  induction s as [|c t [w Hw]]; simpl.
  - now exists [].
  - destruct (isspace c).
    + exists (c :: w). simpl. now rewrite <- Hw.
    + now exists [].
Qed.

Lemma last_or_app (b : option char) (s : str) (c : char) :
  last_or b (s ++ [c]) = Some c.
Proof.
  revert b. induction s as [|x t IH]; intros b; simpl; [reflexivity | apply IH].
Qed.

Lemma last_or_app_cons (b : option char) (u : str) (x : char) (v : str) :
  last_or b (u ++ x :: v) = last_or (Some x) v.
Proof.
  revert b. induction u as [|y t IH]; intros b; simpl; [reflexivity | apply IH].
Qed.

Lemma ends_with_space_rev (s : str) :
  ends_with_space (rev s) = starts_with_space s.
Proof.
  destruct s as [|c t]; [reflexivity |].
  unfold ends_with_space. simpl rev. now rewrite last_or_app.
Qed.

Lemma rstrip_fixed (s : str) : ends_with_space s = false -> rstrip s = s.
Proof.
  intros H. unfold rstrip.
  rewrite <- (rev_involutive s) in H. rewrite ends_with_space_rev in H.
  rewrite (lstrip_fixed _ H). apply rev_involutive.
Qed.

Lemma strip_fixed (s : str) :
  starts_with_space s = false -> ends_with_space s = false -> strip s = s.
Proof.
  intros Hs He. unfold strip. rewrite (lstrip_fixed _ Hs). now apply rstrip_fixed.
Qed.

Lemma rstrip_prefix (s : str) : exists w, s = rstrip s ++ w.
Proof.
  destruct (lstrip_suffix (rev s)) as [w Hw].
  exists (rev w). unfold rstrip. rewrite <- rev_app_distr, <- Hw.
  symmetry. apply rev_involutive.
Qed.

Lemma strip_starts (s : str) : starts_with_space (strip s) = false.
Proof.
  unfold strip. pose proof (lstrip_starts s) as H.
  destruct (rstrip_prefix (lstrip s)) as [w Hw].
  destruct (rstrip (lstrip s)) as [|c r]; [reflexivity |].
  rewrite Hw in H. exact H.
Qed.

Lemma strip_ends (s : str) : ends_with_space (strip s) = false.
Proof.
  unfold strip, rstrip. rewrite ends_with_space_rev. apply lstrip_starts.
Qed.

Lemma strip_strip (s : str) : strip (strip s) = strip s.
Proof. apply strip_fixed; [apply strip_starts | apply strip_ends]. Qed.

Lemma starts_with_space_app (u v : str) :
  u <> [] -> starts_with_space (u ++ v) = starts_with_space u.
Proof. destruct u; [congruence | reflexivity]. Qed.

Lemma ends_with_space_app (u v : str) :
  v <> [] -> ends_with_space (u ++ v) = ends_with_space v.
Proof.
  destruct v as [|x v]; [congruence |]. intros _.
  unfold ends_with_space. rewrite last_or_app_cons. reflexivity.
Qed.

End Strip_facts.

(* ================================================================== *)
(** * The pattern of [run_chat], position by position *)
(* ================================================================== *)

Section Matcher_facts.

Lemma first_taken_app (l1 l2 : list cursor) :
  first_taken (l1 ++ l2) =
  match first_taken l1 with
  | Some n => Some n
  | None => first_taken l2
  end.
Proof. destruct l1; reflexivity. Qed.

(** A literal matches exactly when the text ahead starts with it. *)
Lemma literal_spec (s : str) (c : cursor) :
  literal s c =
  match strip_prefix s (ahead c) with
  | Some r => Some (Cursor (last_or (before c) s) r (length s + taken c))
  | None => None
  end.
Proof.
  revert c. induction s as [|x s IH]; intros [b a n]; simpl.
  - reflexivity.
  - destruct a as [|y t]; [reflexivity |].
    simpl. destruct (N.eqb_spec x y) as [->|]; [| reflexivity].
    rewrite IH. simpl. destruct (strip_prefix s t); [| reflexivity].
    now rewrite Nat.add_succ_r.
Qed.

(** The greedy star tries the whole run of whitespace first; every other
    attempt stops in front of a whitespace character. *)
Lemma star_spec (s : str) (b : option char) (n : nat) :
  exists b' l,
    star isspace b s n = Cursor b' (lstrip s) (n + ws_run s) :: l
    /\ Forall (fun c => starts_with_space (ahead c) = true) l.
Proof.
  revert b n. induction s as [|x t IH]; intros b n; simpl.
  - exists b, []. now rewrite Nat.add_0_r.
  - destruct (isspace x) eqn:E.
    + destruct (IH (Some x) (S n)) as (b' & l & -> & Hl).
      exists b', (l ++ [Cursor b (x :: t) n]). split.
      * simpl. now rewrite Nat.add_succ_r.
      * apply Forall_app. split; [exact Hl |].
        constructor; [exact E | constructor].
    + exists b, []. now rewrite Nat.add_0_r.
Qed.

Lemma fence_not_after_space (s : str) :
  starts_with_space s = true -> strip_prefix fence s = None.
Proof.
  destruct s as [|y t]; [discriminate |]. intros H.
  unfold fence. cbn [strip_prefix starts_with_space] in *.
  destruct (N.eqb_spec backtick y) as [<-|]; [| reflexivity].
  now rewrite isspace_backtick in H.
Qed.

Lemma open_alternative (b : option char) (s : str) :
  first_taken
    (matches (Seq Bol (Seq (Lit fence) (Seq (Opt (Lit python_tag)) (Star isspace))))
             (Cursor b s 0))
  = open_fence b s.
Proof.
  unfold open_fence. cbn [matches]. unfold at_bol. cbn [before].
  change (match b with None => true | Some x => (x =? LF)%N end) with (bol b).
  destruct (bol b); [| reflexivity].
  cbn [flat_map]. rewrite app_nil_r, literal_spec. cbn [ahead before taken].
  destruct (strip_prefix fence s) as [r|]; [| reflexivity].
  cbn [flat_map]. rewrite app_nil_r, literal_spec. cbn [ahead before taken].
  destruct (strip_prefix python_tag r) as [r'|];
    cbn [flat_map app ahead before taken].
  - destruct (star_spec r' (last_or (last_or b fence) python_tag)
                        (length python_tag + (length fence + 0)))
      as (b' & l & -> & _).
    reflexivity.
  - rewrite app_nil_r.
    destruct (star_spec r (last_or b fence) (length fence + 0))
      as (b' & l & -> & _).
    reflexivity.
Qed.

Lemma close_alternative (b : option char) (s : str) :
  first_taken
    (matches (Seq (Star isspace) (Seq (Lit fence) Eol)) (Cursor b s 0))
  = close_fence s.
Proof.
  unfold close_fence. cbn [matches before ahead taken].
  destruct (star_spec s b 0) as (b' & l & -> & Hl).
  assert (Hnil : flat_map
            (fun c => flat_map (fun c0 => if at_eol c0 then [c0] else [])
                        match literal fence c with
                        | Some c' => [c']
                        | None => []
                        end) l = []).
  { induction Hl as [|c l Hc _ IH]; [reflexivity |].
    cbn [flat_map]. rewrite IH, literal_spec, (fence_not_after_space _ Hc).
    reflexivity. }
  cbn [flat_map]. rewrite Hnil, app_nil_r, literal_spec. cbn [ahead before taken].
  destruct (strip_prefix fence (lstrip s)) as [r|]; [| reflexivity].
  cbn [flat_map]. rewrite app_nil_r. unfold at_eol. cbn [ahead].
  change (match r with [] => true | x :: _ => (x =? LF)%N end) with (eol r).
  destruct (eol r); [| reflexivity].
  cbn [first_taken taken]. f_equal. change (length fence) with 3. lia.
Qed.

(** The backtracking matcher on the pattern of [run_chat] computes
    [fence_match]. *)
Lemma match_at_fence (b : option char) (s : str) :
  match_at fence_re b s = fence_match b s.
Proof.
  unfold match_at, fence_match, fence_re.
  cbn [matches]. fold matches.
  change (first_taken
            (matches (Seq Bol (Seq (Lit fence)
                        (Seq (Opt (Lit python_tag)) (Star isspace))))
                     (Cursor b s 0)
             ++ matches (Seq (Star isspace) (Seq (Lit fence) Eol))
                        (Cursor b s 0))
          = match open_fence b s with
            | Some n => Some n
            | None => close_fence s
            end).
  now rewrite first_taken_app, open_alternative, close_alternative.
Qed.

(** The pattern never matches the empty text. *)
Lemma fence_match_long (b : option char) (s : str) (n : nat) :
  fence_match b s = Some n -> 3 <= n.
Proof.
  unfold fence_match, open_fence, close_fence.
  destruct (bol b); destruct (strip_prefix fence s) as [r|];
    try destruct (strip_prefix python_tag r);
    try (intros [= <-]; lia);
    destruct (strip_prefix fence (lstrip s)) as [r2|]; try discriminate;
    destruct (eol r2); try discriminate; intros [= <-]; lia.
Qed.

End Matcher_facts.

(* ================================================================== *)
(** * The substitution pass over a reply *)
(* ================================================================== *)

Section Substitution_facts.

Lemma sub_from_step (b : option char) (x : char) (t : str) :
  sub_from fence_re [] b (x :: t) 0 =
  match fence_match b (x :: t) with
  | Some (S k) => sub_from fence_re [] (Some x) t k
  | _ => x :: sub_from fence_re [] (Some x) t 0
  end.
Proof.
  cbn [sub_from]. rewrite match_at_fence.
  destruct (fence_match b (x :: t)) as [[|k]|]; reflexivity.
Qed.

(** The characters of a match are dropped, and the scan resumes after them. *)
Lemma sub_from_skip (r : regex) (repl u : str) (b : option char) (rest : str) :
  sub_from r repl b (u ++ rest) (length u) = sub_from r repl (last_or b u) rest 0.
Proof.
  revert b. induction u as [|x u IH]; intros b.
  - reflexivity.
  - cbn [app length sub_from last_or]. apply IH.
Qed.

Lemma contains_head (p s : str) :
  contains p s = false -> strip_prefix p s = None.
Proof.
  destruct s; simpl; destruct (strip_prefix p _); congruence.
Qed.

Lemma contains_tail (p : str) (c : char) (t : str) :
  contains p (c :: t) = false -> contains p t = false.
Proof.
  cbn [contains]. destruct (strip_prefix p (c :: t)); congruence.
Qed.

Lemma contains_lstrip (p s : str) :
  contains p s = false -> contains p (lstrip s) = false.
Proof.
  induction s as [|c t IH]; intros H; [exact H |].
  cbn [lstrip]. destruct (isspace c); [| exact H].
  apply IH. exact (contains_tail _ _ _ H).
Qed.

Lemma no_match_without_fence (b : option char) (s : str) :
  contains fence s = false -> fence_match b s = None.
Proof.
  intros H. unfold fence_match, open_fence, close_fence.
  rewrite (contains_head _ _ H), (contains_head _ _ (contains_lstrip _ _ H)).
  now destruct (bol b).
Qed.

(** Text without a fence marker is copied as it is. *)
Lemma sub_without_fence (s : str) :
  contains fence s = false -> sub fence_re [] s = s.
Proof.
  unfold sub. generalize (@None char).
  induction s as [|x t IH]; intros b H; [reflexivity |].
  rewrite sub_from_step, (no_match_without_fence _ _ H).
  f_equal. apply IH. exact (contains_tail _ _ _ H).
Qed.

Lemma fence_needs_backtick (d : char) (s : str) :
  (backtick =? d)%N = false -> strip_prefix fence (d :: s) = None.
Proof. intros H. unfold fence. cbn [strip_prefix]. now rewrite H. Qed.

Lemma ends_with_space_cons (c d : char) (u : str) :
  ends_with_space (c :: d :: u) = ends_with_space (d :: u).
Proof. reflexivity. Qed.

Lemma lstrip_reaches_text (u rest : str) :
  u <> [] -> ends_with_space u = false ->
  exists d v, lstrip (u ++ rest) = d :: v ++ rest /\ In d u.
Proof.
  induction u as [|c u IH]; [congruence |]. intros _ He.
  cbn [app lstrip]. destruct (isspace c) eqn:Ec.
  - destruct u as [|c' u].
    + unfold ends_with_space in He. cbn in He. congruence.
    + rewrite ends_with_space_cons in He.
      destruct (IH ltac:(discriminate) He) as (d & v & Hd & Hin).
      exists d, v. split; [exact Hd | now right].
  - exists c, u. split; [reflexivity | now left].
Qed.

Lemma no_match_in_text (u rest : str) (b : option char) :
  u <> [] -> existsb (N.eqb backtick) u = false -> ends_with_space u = false ->
  fence_match b (u ++ rest) = None.
Proof.
  intros Hu Hb He.
  assert (Hno : forall d, In d u -> (backtick =? d)%N = false).
  { intros d Hd. destruct (backtick =? d)%N eqn:E; [| reflexivity].
    rewrite <- Hb. symmetry. apply existsb_exists. now exists d. }
  unfold fence_match, open_fence, close_fence.
  destruct (lstrip_reaches_text u rest Hu He) as (d & v & -> & Hd).
  rewrite (fence_needs_backtick _ _ (Hno d Hd)).
  destruct u as [|c u]; [congruence |]. cbn [app].
  rewrite (fence_needs_backtick _ _ (Hno c (or_introl eq_refl))).
  now destruct (bol b).
Qed.

(** Text without backticks that does not end in whitespace is copied as it
    is, whatever follows it. *)
Lemma sub_from_text (u rest : str) (b : option char) :
  existsb (N.eqb backtick) u = false -> ends_with_space u = false ->
  sub_from fence_re [] b (u ++ rest) 0
  = u ++ sub_from fence_re [] (last_or b u) rest 0.
Proof.
  revert b. induction u as [|c u IH]; intros b Hb He; [reflexivity |].
  cbn [app]. rewrite sub_from_step.
  change (c :: u ++ rest) with ((c :: u) ++ rest).
  rewrite (no_match_in_text (c :: u) rest b ltac:(discriminate) Hb He).
  cbn [app last_or]. f_equal. apply IH.
  - cbn [existsb] in Hb. now apply orb_false_iff in Hb.
  - destruct u; [reflexivity | exact He].
Qed.

End Substitution_facts.

(* ================================================================== *)
(** * Fence lines inside a reply *)
(* ================================================================== *)

Section Fence_lines.

Lemma strip_prefix_app (p r : str) : strip_prefix p (p ++ r) = Some r.
Proof.
  induction p as [|x p IH]; [now destruct r |].
  cbn [app strip_prefix]. now rewrite N.eqb_refl.
Qed.

Lemma strip_prefix_LF (r : str) : strip_prefix fence (LF :: r) = None.
Proof. reflexivity. Qed.

Lemma fence_match_closing (b : option char) (rest : str) :
  eol rest = true -> fence_match b (LF :: fence ++ rest) = Some 4.
Proof.
  intros H. unfold fence_match, open_fence, close_fence.
  rewrite strip_prefix_LF.
  cbn [lstrip ws_run]. rewrite isspace_LF.
  change (lstrip (fence ++ rest)) with (fence ++ rest).
  change (ws_run (fence ++ rest)) with 0.
  rewrite strip_prefix_app, H. now destruct (bol b).
Qed.

Lemma fence_match_before_tag (b : option char) (rest : str) :
  fence_match b (LF :: fence ++ python_tag ++ rest) = None.
Proof.
  unfold fence_match, open_fence, close_fence.
  rewrite strip_prefix_LF.
  cbn [lstrip]. rewrite isspace_LF.
  change (lstrip (fence ++ python_tag ++ rest)) with (fence ++ python_tag ++ rest).
  rewrite strip_prefix_app.
  change (eol (python_tag ++ rest)) with false.
  now destruct (bol b).
Qed.

Lemma fence_match_tagged (x : char) (rest : str) :
  isspace x = false ->
  fence_match (Some LF) (fence ++ python_tag ++ LF :: x :: rest) = Some 10.
Proof.
  intros Hx. unfold fence_match, open_fence.
  change (bol (Some LF)) with true. cbv iota.
  rewrite !strip_prefix_app. cbn [ws_run]. now rewrite isspace_LF, Hx.
Qed.

Lemma fence_match_before_text (b : option char) (x : char) (rest : str) :
  isspace x = false -> (backtick =? x)%N = false ->
  fence_match b (LF :: x :: rest) = None.
Proof.
  intros Hx Hb. unfold fence_match, open_fence, close_fence.
  rewrite strip_prefix_LF. cbn [lstrip]. rewrite isspace_LF, Hx.
  rewrite (fence_needs_backtick _ _ Hb). now destruct (bol b).
Qed.

(** A line that holds only a fence marker, tagged or bare, and is followed by
    a line of text disappears together with one of its line breaks. *)
Lemma fence_line (tagged : bool) (b : option char) (x : char) (rest : str) :
  isspace x = false -> (backtick =? x)%N = false ->
  sub_from fence_re [] b
    (LF :: fence ++ (if tagged then python_tag else []) ++ LF :: x :: rest) 0
  = LF :: sub_from fence_re [] (Some LF) (x :: rest) 0.
Proof.
  intros Hx Hb. destruct tagged.
  - rewrite sub_from_step, fence_match_before_tag. f_equal.
    change (fence ++ python_tag ++ LF :: x :: rest)
      with (backtick :: ([backtick; backtick] ++ python_tag ++ [LF]) ++ x :: rest)
      at 1.
    rewrite sub_from_step.
    change (backtick :: ([backtick; backtick] ++ python_tag ++ [LF]) ++ x :: rest)
      with (fence ++ python_tag ++ LF :: x :: rest).
    rewrite (fence_match_tagged _ _ Hx).
    change 9 with (length ([backtick; backtick] ++ python_tag ++ [LF])).
    rewrite sub_from_skip. reflexivity.
  - cbn [app].
    rewrite sub_from_step.
    change (LF :: backtick :: backtick :: backtick :: LF :: x :: rest)
      with (LF :: fence ++ LF :: x :: rest).
    rewrite (fence_match_closing b (LF :: x :: rest) eq_refl).
    change (sub_from fence_re [] (Some LF) (fence ++ LF :: x :: rest) 3)
      with (sub_from fence_re [] (Some LF) (fence ++ LF :: x :: rest) (length fence)).
    rewrite sub_from_skip. rewrite sub_from_step.
    now rewrite (fence_match_before_text _ _ _ Hx Hb).
Qed.


Lemma plain_inv (s : str) :
  plain s = true ->
  exists x t, s = x :: t /\ isspace x = false /\ (backtick =? x)%N = false
    /\ existsb (N.eqb backtick) s = false /\ ends_with_space s = false.
Proof.
  destruct s as [|x t]; [discriminate |]. unfold plain. intros H.
  apply andb_true_iff in H as [H He]. apply andb_true_iff in H as [Hb Hs].
  apply negb_true_iff in He, Hb, Hs.
  exists x, t. repeat split; try assumption.
  cbn [existsb] in Hb. now apply orb_false_iff in Hb.
Qed.

Lemma sub_fenced_reply (tagged : bool) (above block below : str) :
  plain above = true -> plain block = true -> plain below = true ->
  sub fence_re [] (fenced_reply tagged above block below)
  = above ++ LF :: block ++ LF :: below.
Proof.
  intros Ha Hk Hw.
  destruct (plain_inv _ Ha) as (_ & _ & _ & _ & _ & Hab & Hae).
  destruct (plain_inv _ Hk) as (x & k & -> & Hx & Hxb & Hkb & Hke).
  destruct (plain_inv _ Hw) as (y & w & -> & Hy & Hyb & Hwb & Hwe).
  unfold sub, fenced_reply.
  rewrite (sub_from_text _ _ _ Hab Hae).
  change (LF :: fence ++ (if tagged then python_tag else []) ++
          LF :: (x :: k) ++ LF :: fence ++ LF :: y :: w)
    with (LF :: fence ++ (if tagged then python_tag else []) ++
          LF :: x :: (k ++ LF :: fence ++ LF :: y :: w)).
  rewrite (fence_line tagged _ _ _ Hx Hxb).
  change (x :: k ++ LF :: fence ++ LF :: y :: w)
    with ((x :: k) ++ LF :: fence ++ [] ++ LF :: y :: w).
  rewrite (sub_from_text _ _ _ Hkb Hke).
  rewrite (fence_line false _ _ _ Hy Hyb).
  rewrite <- (app_nil_r (y :: w)) at 1.
  rewrite (sub_from_text _ _ _ Hwb Hwe).
  cbn [sub_from]. now rewrite !app_nil_r.
Qed.

Lemma last_or_app_gen (b : option char) (u v : str) :
  last_or b (u ++ v) = last_or (last_or b u) v.
Proof.
  revert b. induction u as [|x u IH]; intros b; [reflexivity | apply IH].
Qed.

Lemma strip_fenced_reply (tagged : bool) (above block below : str) :
  plain above = true -> plain below = true ->
  strip (fenced_reply tagged above block below)
  = fenced_reply tagged above block below.
Proof.
  intros Ha Hw.
  destruct (plain_inv _ Ha) as (x & a & -> & Hx & _ & _ & _).
  destruct (plain_inv _ Hw) as (y & w & -> & _ & _ & _ & Hwe).
  apply strip_fixed; [exact Hx |].
  unfold ends_with_space, fenced_reply in *. cbn [last_or] in Hwe.
  repeat first [rewrite last_or_app_gen | progress cbn [last_or]]. exact Hwe.
Qed.

Lemma strip_joined_text (above block below : str) :
  plain above = true -> plain below = true ->
  strip (above ++ LF :: block ++ LF :: below) = above ++ LF :: block ++ LF :: below.
Proof.
  intros Ha Hw.
  destruct (plain_inv _ Ha) as (x & a & -> & Hx & _ & _ & _).
  destruct (plain_inv _ Hw) as (y & w & -> & _ & _ & _ & Hwe).
  apply strip_fixed; [exact Hx |].
  unfold ends_with_space in *. cbn [last_or] in Hwe.
  repeat first [rewrite last_or_app_gen | progress cbn [last_or]]. exact Hwe.
Qed.

Lemma fence_match_before_inline (b : option char) (rest : str) :
  eol rest = false -> fence_match b (LF :: fence ++ rest) = None.
Proof.
  intros H. unfold fence_match, open_fence, close_fence.
  rewrite strip_prefix_LF.
  cbn [lstrip]. rewrite isspace_LF.
  change (lstrip (fence ++ rest)) with (fence ++ rest).
  rewrite strip_prefix_app, H. now destruct (bol b).
Qed.

Lemma not_space_not_LF (x : char) : isspace x = false -> (x =? LF)%N = false.
Proof.
  intros H. destruct (N.eqb_spec x LF) as [->|]; [| reflexivity].
  now rewrite isspace_LF in H.
Qed.

Lemma fence_match_inline (tagged : bool) (x : char) (rest : str) :
  isspace x = false ->
  (tagged = false -> strip_prefix python_tag (x :: rest) = None) ->
  fence_match (Some LF) (fence ++ (if tagged then python_tag else []) ++ x :: rest)
  = Some (S (length ([backtick; backtick] ++ (if tagged then python_tag else [])))).
Proof.
  intros Hx Htag. unfold fence_match, open_fence.
  change (bol (Some LF)) with true. cbv iota.
  rewrite strip_prefix_app. destruct tagged.
  - rewrite strip_prefix_app. cbn [ws_run]. now rewrite Hx.
  - cbn [app]. rewrite (Htag eq_refl). cbn [ws_run]. now rewrite Hx.
Qed.

Lemma sub_line_opened (tagged : bool) (above below : str) :
  plain above = true -> plain below = true ->
  (tagged = false -> strip_prefix python_tag below = None) ->
  sub fence_re [] (line_opened_by_fence tagged above below) = above ++ LF :: below.
Proof.
  intros Ha Hw Htag.
  destruct (plain_inv _ Ha) as (_ & _ & _ & _ & _ & Hab & Hae).
  destruct (plain_inv _ Hw) as (y & w & -> & Hy & Hyb & Hwb & Hwe).
  unfold sub, line_opened_by_fence.
  rewrite (sub_from_text _ _ _ Hab Hae), sub_from_step.
  rewrite fence_match_before_inline
    by (destruct tagged; [reflexivity | exact (not_space_not_LF _ Hy)]).
  change (fence ++ (if tagged then python_tag else []) ++ y :: w)
    with (backtick :: ([backtick; backtick] ++ (if tagged then python_tag else []))
                       ++ y :: w) at 1.
  rewrite sub_from_step.
  change (backtick :: ([backtick; backtick] ++ (if tagged then python_tag else []))
                       ++ y :: w)
    with (fence ++ (if tagged then python_tag else []) ++ y :: w).
  rewrite (fence_match_inline tagged _ _ Hy Htag).
  rewrite sub_from_skip.
  rewrite <- (app_nil_r (y :: w)) at 1.
  rewrite (sub_from_text _ _ _ Hwb Hwe).
  cbn [sub_from]. now rewrite !app_nil_r.
Qed.

Lemma last_of_text (b : option char) (s : str) :
  s <> [] -> ends_with_space s = false ->
  exists c, last_or b s = Some c /\ isspace c = false.
Proof.
  destruct s as [|x s]; [congruence |]. intros _.
  unfold ends_with_space. cbn [last_or].
  destruct (last_or (Some x) s) as [c|] eqn:E; [now exists c |].
  exfalso. revert x E. induction s as [|z s IH]; intros x; cbn [last_or].
  - discriminate.
  - apply IH.
Qed.

Lemma fence_match_at_line_end (c : char) (rest : str) :
  (c =? LF)%N = false -> eol rest = true ->
  fence_match (Some c) (fence ++ rest) = Some 3.
Proof.
  intros Hc He. unfold fence_match, open_fence, close_fence.
  cbn [bol]. rewrite Hc.
  change (lstrip (fence ++ rest)) with (fence ++ rest).
  change (ws_run (fence ++ rest)) with 0.
  now rewrite strip_prefix_app, He.
Qed.

Lemma sub_line_closed (above below : str) :
  plain above = true -> plain below = true ->
  sub fence_re [] (line_closed_by_fence above below) = above ++ LF :: below.
Proof.
  intros Ha Hw.
  destruct (plain_inv _ Ha) as (x & a & Ea & _ & _ & Hab & Hae).
  destruct (plain_inv _ Hw) as (y & w & -> & Hy & Hyb & Hwb & Hwe).
  assert (Hne : above <> []) by (rewrite Ea; discriminate).
  destruct (last_of_text None above Hne Hae) as (c & Hc & Hcs).
  unfold sub, line_closed_by_fence.
  rewrite (sub_from_text _ _ _ Hab Hae), Hc.
  change (fence ++ LF :: y :: w)
    with (backtick :: [backtick; backtick] ++ LF :: y :: w) at 1.
  rewrite sub_from_step.
  change (backtick :: [backtick; backtick] ++ LF :: y :: w)
    with (fence ++ LF :: y :: w).
  rewrite (fence_match_at_line_end c (LF :: y :: w) (not_space_not_LF _ Hcs) eq_refl).
  change 2 with (length [backtick; backtick]).
  rewrite sub_from_skip, sub_from_step.
  rewrite (fence_match_before_text _ _ _ Hy Hyb).
  rewrite <- (app_nil_r (y :: w)) at 1.
  rewrite (sub_from_text _ _ _ Hwb Hwe).
  cbn [sub_from]. now rewrite !app_nil_r.
Qed.

Lemma strip_around_text (above middle below : str) :
  plain above = true -> plain below = true ->
  strip (above ++ middle ++ below) = above ++ middle ++ below.
Proof.
  intros Ha Hw.
  destruct (plain_inv _ Ha) as (x & a & -> & Hx & _ & _ & _).
  destruct (plain_inv _ Hw) as (y & w & -> & _ & _ & _ & Hwe).
  apply strip_fixed; [exact Hx |].
  unfold ends_with_space in *. cbn [last_or] in Hwe.
  rewrite !last_or_app_gen. cbn [last_or]. exact Hwe.
Qed.

Lemma sanitize_clean (s : str) : clean s = true -> sanitize s = s.
Proof.
  unfold clean. intros H.
  apply andb_true_iff in H as [H He]. apply andb_true_iff in H as [Hf Hs].
  apply negb_true_iff in He, Hf, Hs.
  unfold sanitize.
  now rewrite (strip_fixed _ Hs He), (sub_without_fence _ Hf), (strip_fixed _ Hs He).
Qed.

End Fence_lines.

(* ================================================================== *)
(** * Sanitization: the claims *)
(* ================================================================== *)

(** C3.  For the raw reply made of the line [```python], the line
    [CandidateProfile.objects.filter(x=1)] and the line [```], the sanitized
    result is exactly [CandidateProfile.objects.filter(x=1)]: it carries no
    fence marker and no whitespace at either end. *)
Theorem C3_fenced_block_example :
  sanitize (lit "```python" ++ LF :: lit "CandidateProfile.objects.filter(x=1)"
              ++ LF :: lit "```")
  = lit "CandidateProfile.objects.filter(x=1)"
  /\ clean (lit "CandidateProfile.objects.filter(x=1)") = true.
Proof. split; vm_compute; reflexivity. Qed.

(** C4, as stated, fails: sanitizing [a``````] removes only the fence that
    ends the line and leaves [a```], which the next application turns into
    [a]; so the transformation applied to its own output changes it. *)
Lemma C4_leftover_fence_counterexample :
  sanitize (lit "a``````") = lit "a```"
  /\ sanitize (sanitize (lit "a``````")) = lit "a"
  /\ sanitize (sanitize (lit "a``````")) <> sanitize (lit "a``````").
Proof. vm_compute. repeat split; discriminate. Qed.

(** C4, amended.  Sanitization applied to its own output returns that output
    unchanged whenever the output holds no fence marker any more; and
    already-clean text (no fence marker, no whitespace around it) is
    returned unchanged. *)
Theorem C4_idempotent_once_fences_are_gone (s : str) :
  (contains fence (sanitize s) = false -> sanitize (sanitize s) = sanitize s)
  /\ (clean s = true -> sanitize s = s).
Proof.
  split; [| apply sanitize_clean].
  intros H. apply sanitize_clean. unfold clean. rewrite H.
  unfold sanitize. now rewrite strip_starts, strip_ends.
Qed.

Lemma C4_idempotent_witness :
  contains fence (sanitize (lit "  ```python  x = 1  ```  ")) = false
  /\ sanitize (sanitize (lit "  ```python  x = 1  ```  "))
     = sanitize (lit "  ```python  x = 1  ```  ")
  /\ clean (lit "x = 1") = true
  /\ sanitize (lit "x = 1") = lit "x = 1".
Proof.
  split; [reflexivity |]. split.
  - apply (proj1 (C4_idempotent_once_fences_are_gone
                    (lit "  ```python  x = 1  ```  "))).
    reflexivity.
  - split; [reflexivity |].
    apply (proj2 (C4_idempotent_once_fences_are_gone (lit "x = 1"))).
    reflexivity.
Defined.

(** X15.  Take a reply whose first and last lines are plain text (no
    backtick, no whitespace at either end).  (1, 2) If it holds in between
    a line with an opening fence (tagged python or bare), a plain block and
    a line with the closing fence, the one substitution pass over the
    trimmed reply removes both markers with one line break each, and the
    final trim has nothing left to remove.  (3) A marker that starts an
    inner line of text is removed, with its tag.  (4) A marker that ends an
    inner line of text is removed. *)
Theorem X15_interior_block_unwrapped (tagged : bool) (above block below : str) :
  plain above = true -> plain block = true -> plain below = true ->
  sub fence_re [] (strip (fenced_reply tagged above block below))
  = above ++ LF :: block ++ LF :: below
  /\ sanitize (fenced_reply tagged above block below)
     = above ++ LF :: block ++ LF :: below
  /\ ((tagged = false -> strip_prefix python_tag below = None) ->
      sanitize (line_opened_by_fence tagged above below) = above ++ LF :: below)
  /\ sanitize (line_closed_by_fence above below) = above ++ LF :: below.
Proof.
  intros Ha Hk Hw.
  assert (Hsub : sub fence_re [] (strip (fenced_reply tagged above block below))
                 = above ++ LF :: block ++ LF :: below).
  { rewrite (strip_fenced_reply _ _ _ _ Ha Hw).
    now apply sub_fenced_reply. }
  assert (Hout : strip (above ++ LF :: below) = above ++ LF :: below)
    by exact (strip_around_text above [LF] below Ha Hw).
  split; [exact Hsub |]. split; [| split].
  - unfold sanitize. rewrite Hsub. now apply strip_joined_text.
  - intros Htag. unfold sanitize.
    replace (strip (line_opened_by_fence tagged above below))
      with (line_opened_by_fence tagged above below).
    + now rewrite (sub_line_opened _ _ _ Ha Hw Htag).
    + symmetry.
      exact (strip_around_text above
               (LF :: fence ++ (if tagged then python_tag else [])) below Ha Hw).
  - unfold sanitize.
    replace (strip (line_closed_by_fence above below))
      with (line_closed_by_fence above below).
    + now rewrite (sub_line_closed _ _ Ha Hw).
    + symmetry. exact (strip_around_text above (fence ++ [LF]) below Ha Hw).
Qed.

Lemma X15_interior_block_witness :
  plain (lit "Here is the query:") = true
  /\ plain (lit "CandidateProfile.objects.filter(x=1)") = true
  /\ plain (lit "Run it in a shell.") = true
  /\ sanitize (fenced_reply false (lit "Here is the query:")
                 (lit "CandidateProfile.objects.filter(x=1)")
                 (lit "Run it in a shell."))
     = lit "Here is the query:"
         ++ LF :: lit "CandidateProfile.objects.filter(x=1)"
         ++ LF :: lit "Run it in a shell."
  /\ sanitize (line_opened_by_fence false (lit "Here is the query:")
                 (lit "Run it in a shell."))
     = lit "Here is the query:" ++ LF :: lit "Run it in a shell.".
Proof.
  do 3 (split; [reflexivity |]).
  pose proof (X15_interior_block_unwrapped false (lit "Here is the query:")
                (lit "CandidateProfile.objects.filter(x=1)")
                (lit "Run it in a shell.") eq_refl eq_refl eq_refl)
    as (_ & Hblock & Hopened & _).
  split; [exact Hblock |].
  apply Hopened. intros _. reflexivity.
Defined.

(* ================================================================== *)
(** * The prompt: the claim *)
(* ================================================================== *)

(** C7.  The prompt is a function of the user query alone: for every query
    [Q] it is the one fixed instruction block followed by [Q] between double
    quotes (and the two line breaks that end the literal).  Being a total
    function from text to text, its construction cannot fail and touches
    nothing else. *)
Theorem C7_prompt_is_block_then_quoted_query (Q : str) :
  prompt Q = instruction_block ++ dquote :: Q ++ [dquote; LF; LF].
Proof.
  unfold prompt, fstring, text_before_query, text_after_query, instruction_block.
  generalize (join [LF] (map source_line instruction_lines)). intros body.
  cbn [map render concat]. rewrite app_nil_r.
  cbn [app]. rewrite <- !app_assoc. reflexivity.
Qed.

(* ================================================================== *)
(** * The endpoint and the orchestrator: the claims *)
(* ================================================================== *)

Section Equality_tests.

Lemma str_eqb_eq (a b : str) : str_eqb a b = true <-> a = b.
Proof.
  revert b. induction a as [|x a IH]; intros [|y b]; simpl.
  - tauto.
  - split; [discriminate | congruence].
  - split; [discriminate | congruence].
  - rewrite andb_true_iff, N.eqb_eq, IH. split.
    + now intros [-> ->].
    + intros [= -> ->]. now split.
Qed.

Lemma opt_eqb_eq (a b : option str) : opt_eqb a b = true <-> a = b.
Proof.
  destruct a as [x|], b as [y|]; simpl.
  - rewrite str_eqb_eq. split; congruence.
  - split; [discriminate | congruence].
  - split; [discriminate | congruence].
  - tauto.
Qed.

Lemma opt_eqb_refl (a : option str) : opt_eqb a a = true.
Proof. now apply opt_eqb_eq. Qed.

End Equality_tests.

Section Orchestrator_facts.

Variable getenv : string -> option str.
Variable provider : provider_t.

(** A service that was built carries the model it was given. *)
Lemma built_service_model (m base : option str) (service : AIService) :
  new_AIService getenv m base = inr service -> model_name service = m.
Proof.
  unfold new_AIService.
  destruct (new_AsyncOpenAI getenv _ _); [discriminate |].
  now intros [= <-].
Qed.

(** Building the client succeeds or fails whatever model and base URL are
    asked for. *)
Lemma can_build_client_spec (m base : option str) :
  can_build_client getenv = true
  <-> exists service, new_AIService getenv m base = inr service.
Proof.
  unfold can_build_client, new_AIService, new_AsyncOpenAI.
  destruct (getenv "AI_API_KEY"%string), (getenv "OPENAI_API_KEY"%string);
    split; try (intros _; eexists; reflexivity); try reflexivity;
    try discriminate; intros [service H]; discriminate H.
Qed.

(** Once the service is built, the orchestrator is [run_chat] on it. *)
Lemma orchestrator_with_service
  (user_query : str) (w : traffic) (service : AIService) :
  new_AIService getenv (getenv "AI_MODEL"%string) None = inr service ->
  generate_filters_with_ai getenv provider user_query w
  = run_chat provider service (prompt user_query) w.
Proof.
  intros H. unfold generate_filters_with_ai, bind, lift. now rewrite H.
Qed.

(** When the provider answers with a first candidate that carries text, the
    orchestrator returns that text sanitized, after its one request. *)
Lemma orchestrator_returns_sanitized
  (user_query : str) (w : traffic) (service : AIService)
  (response : chat_completion) (first : choice) (others : list choice)
  (raw : str) :
  new_AIService getenv (getenv "AI_MODEL"%string) None = inr service ->
  provider w (request_for getenv user_query) = inr response ->
  choices response = first :: others ->
  content (message first) = Some raw ->
  generate_filters_with_ai getenv provider user_query w
  = (inr (sanitize raw), w ++ [request_for getenv user_query]).
Proof.
  intros Hs Hp Hc Hraw.
  rewrite (orchestrator_with_service _ _ _ Hs).
  unfold run_chat, chat, bind, send, request_for in *.
  cbn [keyword_clash existsb]. rewrite (built_service_model _ _ _ Hs).
  now rewrite Hp, Hc, Hraw.
Qed.

End Orchestrator_facts.

(** C1.  A request whose [backend_secret] header is missing, or differs from
    the configured secret, is answered by raising [HTTPException] with
    status 401.  This holds whatever function the handler would call as the
    orchestrator, and leaves the provider traffic as it was: the
    orchestrator is not invoked. *)
Theorem C1_rejects_missing_or_wrong_secret
  (SECRET : option str) (orchestrator : str -> M str)
  (req : QueryRequest) (backend_secret : option str) (w : traffic) :
  backend_secret = None \/ backend_secret <> SECRET ->
  generate SECRET orchestrator req backend_secret w
  = (inl (HTTPException 401 (lit "Invalid credentials")), w).
Proof.
  intros H. unfold generate.
  destruct backend_secret as [[|c s]|]; try reflexivity.
  destruct H as [H | H]; [discriminate |].
  cbn [truthy negb orb].
  match goal with
  | |- context [opt_eqb ?a ?b] => destruct (opt_eqb a b) eqn:E
  end.
  - apply opt_eqb_eq in E. contradiction.
  - reflexivity.
Qed.

Lemma C1_wrong_secret_witness :
  (Some (lit "guess") = None \/ Some (lit "guess") <> Some (lit "s3cret"))
  /\ generate (Some (lit "s3cret"))
       (generate_filters_with_ai Sample.environment Sample.answering)
       (MkQueryRequest Sample.question) (Some (lit "guess")) []
     = (inl (HTTPException 401 (lit "Invalid credentials")), []).
Proof.
  assert (H : Some (lit "guess") = None \/ Some (lit "guess") <> Some (lit "s3cret")).
  { right. intros E. vm_compute in E. discriminate E. }
  split; [exact H |].
  apply (C1_rejects_missing_or_wrong_secret _ _ _ _ _ H).
Defined.

(** C2, as stated, fails: in a process whose configured secret is the empty
    text, a request carrying that same (empty) secret is rejected with 401,
    although the orchestrator would have returned a query for it. *)
Lemma C2_empty_secret_counterexample :
  Sample.environment_with_empty_secret "BACKEND_SECRET" = Some []
  /\ fst (generate_filters_with_ai Sample.environment_with_empty_secret
            Sample.answering Sample.question [])
     = inr (lit "CandidateProfile.objects.filter(x=1)")
  /\ post_api_generate Sample.environment_with_empty_secret Sample.answering
       (MkQueryRequest Sample.question) (Some []) []
     = (inl (HTTPException 401 (lit "Invalid credentials")), []).
Proof. repeat split; vm_compute; reflexivity. Qed.

(** C2, amended.  For every request carrying a non-empty header equal to the
    configured secret: whenever the orchestrator returns a string for the
    query text, the endpoint returns the envelope whose only field [orm] is
    exactly that string, and causes nothing beyond what the orchestrator
    did; so in the running application, once the client is built and the
    provider answers with a first candidate of text [raw], the envelope
    holds [sanitize raw]. *)
Theorem C2_envelope_carries_orchestrator_result
  (secret : str) (req : QueryRequest) (w : traffic) :
  secret <> [] ->
  (forall (orchestrator : str -> M str) (w' : traffic) (result : str),
      orchestrator (query req) w = (inr result, w') ->
      generate (Some secret) orchestrator req (Some secret) w
      = (inr (MkQueryResponse result), w'))
  /\ (forall (getenv : string -> option str) (provider : provider_t)
        (service : AIService)
        (response : chat_completion) (first : choice) (others : list choice)
        (raw : str),
        getenv "BACKEND_SECRET"%string = Some secret ->
        new_AIService getenv (getenv "AI_MODEL"%string) None = inr service ->
        provider w (request_for getenv (query req)) = inr response ->
        choices response = first :: others ->
        content (message first) = Some raw ->
        post_api_generate getenv provider req (Some secret) w
        = (inr (MkQueryResponse (sanitize raw)),
           w ++ [request_for getenv (query req)])).
Proof.
  intros Hne.
  assert (Hgen : forall orchestrator w' result,
             orchestrator (query req) w = (inr result, w') ->
             generate (Some secret) orchestrator req (Some secret) w
             = (inr (MkQueryResponse result), w')).
  { intros orchestrator w' result Hr. unfold generate.
    destruct secret as [|c s]; [congruence |].
    cbn [truthy negb orb]. rewrite opt_eqb_refl. cbn [negb].
    unfold bind. now rewrite Hr. }
  split; [exact Hgen |].
  intros getenv provider service response first others raw Hsec Hs Hp Hc Hraw.
  unfold post_api_generate. rewrite Hsec. apply Hgen.
  now apply (orchestrator_returns_sanitized getenv provider (query req) w
               service response first others raw).
Qed.

Lemma C2_envelope_witness :
  lit "s3cret" <> []
  /\ Sample.environment "BACKEND_SECRET" = Some (lit "s3cret")
  /\ new_AIService Sample.environment (Sample.environment "AI_MODEL") None
     = inr Sample.service
  /\ post_api_generate Sample.environment Sample.answering
       (MkQueryRequest Sample.question) (Some (lit "s3cret")) []
     = (inr (MkQueryResponse (sanitize Sample.fenced_answer)),
        [] ++ [request_for Sample.environment
                 (query (MkQueryRequest Sample.question))]).
Proof.
  assert (H : lit "s3cret" <> []).
  { intros E. vm_compute in E. discriminate E. }
  split; [exact H |]. split; [reflexivity |]. split; [reflexivity |].
  exact (proj2 (C2_envelope_carries_orchestrator_result
                  (lit "s3cret") (MkQueryRequest Sample.question) [] H)
               Sample.environment Sample.answering Sample.service
               (ChatCompletion [Choice (ChatMessage (Some Sample.fenced_answer))])
               (Choice (ChatMessage (Some Sample.fenced_answer))) []
               Sample.fenced_answer eq_refl eq_refl eq_refl eq_refl eq_refl).
Defined.

(** C9.  Authentication fails closed.  When no secret is configured
    ([SECRET] is [None]) every request is rejected with 401, whatever its
    header; and a request whose header is the empty text is rejected with
    401 whatever the configured secret, the empty one included. *)
Theorem C9_fails_closed
  (SECRET : option str) (orchestrator : str -> M str)
  (req : QueryRequest) (backend_secret : option str) (w : traffic) :
  generate None orchestrator req backend_secret w
  = (inl (HTTPException 401 (lit "Invalid credentials")), w)
  /\ generate SECRET orchestrator req (Some []) w
     = (inl (HTTPException 401 (lit "Invalid credentials")), w)
  /\ generate (Some []) orchestrator req (Some []) w
     = (inl (HTTPException 401 (lit "Invalid credentials")), w).
Proof.
  repeat split; try reflexivity.
  destruct backend_secret as [[|c s]|]; reflexivity.
Qed.

(* ================================================================== *)
(** * The client and the orchestrator: requests and failures *)
(* ================================================================== *)

(** C6.  For every message list and model identifier (and any extra keyword
    arguments that do not repeat an explicit one), [AIService.chat] sends
    exactly one completion request, carrying the model, the messages and
    [max_tokens = 1024]; and when the provider answers with at least one
    candidate, it returns the content of the first one. *)
Theorem C6_client_sends_one_bounded_request
  (provider : provider_t) (self : AIService) (msgs : list dict)
  (kwargs : list (string * pyval)) (w : traffic) :
  keyword_clash kwargs = false ->
  snd (chat provider self msgs kwargs w)
  = w ++ [CompletionRequest (model_name self) msgs 1024 kwargs]
  /\ forall response first others,
       provider w (CompletionRequest (model_name self) msgs 1024 kwargs)
       = inr response ->
       choices response = first :: others ->
       fst (chat provider self msgs kwargs w) = inr (content (message first)).
Proof.
  intros Hk. unfold chat, bind, send. rewrite Hk. split.
  - destruct (provider w _) as [e | response]; [reflexivity |].
    destruct (choices response); reflexivity.
  - intros response first others Hp Hc. now rewrite Hp, Hc.
Qed.

Lemma C6_client_witness :
  keyword_clash [] = false
  /\ snd (chat Sample.answering
            Sample.service
            [user_message Sample.question] [] [])
     = [] ++ [CompletionRequest (Some (lit "gpt-4o-mini"))
                [user_message Sample.question] 1024 []]
  /\ fst (chat Sample.answering
            Sample.service
            [user_message Sample.question] [] [])
     = inr (Some Sample.fenced_answer).
Proof.
  split; [reflexivity |].
  pose proof (C6_client_sends_one_bounded_request Sample.answering
                Sample.service
                [user_message Sample.question] [] [] eq_refl) as [Hsent Hret].
  split; [exact Hsent |].
  exact (Hret _ _ _ eq_refl eq_refl).
Defined.

(** C5, as stated, fails: in a process started without any API key the
    service cannot be built, the invocation raises [OpenAIError], and no
    call reaches the client. *)
Lemma C5_no_key_counterexample :
  new_AIService Sample.environment_without_key
    (Sample.environment_without_key "AI_MODEL") None = inl OpenAIError
  /\ generate_filters_with_ai Sample.environment_without_key Sample.answering
       Sample.question []
     = (inl OpenAIError, []).
Proof. split; reflexivity. Qed.

(** C5, amended.  Every invocation of the orchestrator in which the service
    is built adds exactly one call to the traffic, whatever the provider
    does with it (an answer, an answer without candidates or without text,
    an exception): the call carries one message, with role [user] and the
    whole prompt built for the query as its content.  No second call
    follows. *)
Theorem C5_orchestrator_sends_one_request
  (getenv : string -> option str) (provider : provider_t)
  (user_query : str) (w : traffic) (service : AIService) :
  new_AIService getenv (getenv "AI_MODEL"%string) None = inr service ->
  snd (generate_filters_with_ai getenv provider user_query w)
  = w ++ [CompletionRequest (getenv "AI_MODEL"%string)
            [[(lit "role", lit "user"); (lit "content", prompt user_query)]]
            1024 []].
Proof.
  intros Hs. rewrite (orchestrator_with_service _ _ _ _ _ Hs).
  unfold run_chat, chat, bind, send.
  cbn [keyword_clash existsb]. rewrite (built_service_model _ _ _ _ Hs).
  destruct (provider w _) as [e | response]; [reflexivity |].
  destruct (choices response) as [|first others]; [reflexivity |].
  destruct (content (message first)); reflexivity.
Qed.

Lemma C5_one_request_witness :
  new_AIService Sample.environment (Sample.environment "AI_MODEL") None
  = inr Sample.service
  /\ snd (generate_filters_with_ai Sample.environment Sample.rate_limiting
            Sample.question [])
     = [] ++ [CompletionRequest (Sample.environment "AI_MODEL")
                [[(lit "role", lit "user");
                  (lit "content", prompt Sample.question)]]
                1024 []].
Proof.
  split; [reflexivity |].
  exact (C5_orchestrator_sends_one_request Sample.environment
           Sample.rate_limiting Sample.question [] Sample.service eq_refl).
Defined.

(** C8.  When the completion call of the client that was built fails with an
    exception (raised by the provider, or while reading a malformed
    answer), the orchestrator fails with that same exception, and so does
    the endpoint for an authenticated request: nothing on the way catches
    it or replaces it. *)
Theorem C8_client_failure_propagates
  (getenv : string -> option str) (provider : provider_t)
  (req : QueryRequest) (w : traffic) (service : AIService) (e : exn) :
  new_AIService getenv (getenv "AI_MODEL"%string) None = inr service ->
  fst (chat provider service [user_message (prompt (query req))] [] w) = inl e ->
  generate_filters_with_ai getenv provider (query req) w
  = (inl e, w ++ [request_for getenv (query req)])
  /\ forall secret,
       secret <> [] -> getenv "BACKEND_SECRET"%string = Some secret ->
       post_api_generate getenv provider req (Some secret) w
       = (inl e, w ++ [request_for getenv (query req)]).
Proof.
  intros Hs Hfail.
  assert (Horch : generate_filters_with_ai getenv provider (query req) w
                  = (inl e, w ++ [request_for getenv (query req)])).
  { rewrite (orchestrator_with_service _ _ _ _ _ Hs). revert Hfail.
    unfold run_chat, chat, bind, send, request_for.
    cbn [keyword_clash existsb]. rewrite (built_service_model _ _ _ _ Hs).
    destruct (provider w _) as [e' | response]; cbn [fst].
    - now intros [= ->].
    - destruct (choices response) as [|first others]; cbn [fst].
      + now intros [= ->].
      + discriminate. }
  split; [exact Horch |].
  intros secret Hne Hsec. unfold post_api_generate, generate.
  rewrite Hsec. destruct secret as [|c s]; [congruence |].
  cbn [truthy negb orb]. rewrite opt_eqb_refl. cbn [negb].
  unfold bind. now rewrite Horch.
Qed.

Lemma C8_rate_limit_witness :
  new_AIService Sample.environment (Sample.environment "AI_MODEL") None
  = inr Sample.service
  /\ fst (chat Sample.rate_limiting Sample.service
            [user_message (prompt (query (MkQueryRequest Sample.question)))]
            [] [])
     = inl (ProviderError RateLimited)
  /\ lit "s3cret" <> []
  /\ Sample.environment "BACKEND_SECRET" = Some (lit "s3cret")
  /\ post_api_generate Sample.environment Sample.rate_limiting
       (MkQueryRequest Sample.question) (Some (lit "s3cret")) []
     = (inl (ProviderError RateLimited),
        [] ++ [request_for Sample.environment
                 (query (MkQueryRequest Sample.question))]).
Proof.
  assert (Hne : lit "s3cret" <> []).
  { intros E. vm_compute in E. discriminate E. }
  split; [reflexivity |]. split; [reflexivity |].
  split; [exact Hne |]. split; [reflexivity |].
  exact (proj2 (C8_client_failure_propagates Sample.environment
                  Sample.rate_limiting (MkQueryRequest Sample.question) []
                  Sample.service (ProviderError RateLimited) eq_refl eq_refl)
               (lit "s3cret") Hne eq_refl).
Defined.

(* ================================================================== *)
(** * What sanitization keeps and what it drops *)
(* ================================================================== *)

Section Deletion_facts.

Lemma subsequence_refl (s : str) : subsequence s s.
Proof. induction s; constructor; assumption. Qed.

Lemma subsequence_trans (a b c : str) :
  subsequence a b -> subsequence b c -> subsequence a c.
Proof.
  intros Hab Hbc. revert a Hab.
  induction Hbc as [|x b c _ IH|x b c _ IH]; intros a Hab.
  - exact Hab.
  - inversion Hab; subst.
    + constructor. now apply IH.
    + apply subsequence_drop. now apply IH.
  - apply subsequence_drop. now apply IH.
Qed.

Lemma subsequence_length (a b : str) :
  subsequence a b -> length a <= length b.
Proof. induction 1; simpl; lia. Qed.

Lemma subsequence_suffix (w s : str) : subsequence s (w ++ s).
Proof.
  induction w; simpl; [apply subsequence_refl | now apply subsequence_drop].
Qed.

Lemma subsequence_nil_l (s : str) : subsequence [] s.
Proof. induction s; constructor; assumption. Qed.

Lemma subsequence_prefix (s w : str) : subsequence s (s ++ w).
Proof.
  induction s; simpl; [apply subsequence_nil_l | now constructor].
Qed.

Lemma strip_subsequence (s : str) : subsequence (strip s) s.
Proof.
  unfold strip.
  destruct (rstrip_prefix (lstrip s)) as [w Hw].
  destruct (lstrip_suffix s) as [v Hv].
  apply subsequence_trans with (b := lstrip s).
  - rewrite Hw at 2. apply subsequence_prefix.
  - rewrite Hv at 2. apply subsequence_suffix.
Qed.

(** Replacing matches by the empty text only removes characters, whatever
    the pattern. *)
Lemma sub_from_subsequence (r : regex) (s : str) (b : option char) (k : nat) :
  subsequence (sub_from r [] b s k) s.
Proof.
  revert b k. induction s as [|x t IH]; intros b k; cbn [sub_from].
  - constructor.
  - destruct k as [|k]; [| apply subsequence_drop; apply IH].
    destruct (match_at r b (x :: t)) as [[|n]|]; cbn [app].
    + constructor. apply IH.
    + apply subsequence_drop. apply IH.
    + constructor. apply IH.
Qed.

Lemma strip_prefix_app_some (p u w r : str) :
  strip_prefix p u = Some r -> strip_prefix p (u ++ w) = Some (r ++ w).
Proof.
  revert u. induction p as [|x p IH]; intros u; cbn [strip_prefix].
  - now intros [= <-].
  - destruct u as [|y u]; [discriminate |]. cbn [app strip_prefix].
    destruct (x =? y)%N; [apply IH | discriminate].
Qed.

Lemma contains_prefix (p u w : str) :
  p <> [] -> contains p (u ++ w) = false -> contains p u = false.
Proof.
  intros Hp. induction u as [|x u IH]; intros H.
  - destruct p; [congruence | reflexivity].
  - cbn [app contains] in *.
    destruct (strip_prefix p (x :: u)) as [r|] eqn:E.
    + change (x :: u ++ w) with ((x :: u) ++ w) in H.
      now rewrite (strip_prefix_app_some _ _ w _ E) in H.
    + destruct (strip_prefix p (x :: u ++ w)); [discriminate | now apply IH].
Qed.

Lemma contains_strip (s : str) :
  contains fence s = false -> contains fence (strip s) = false.
Proof.
  intros H. unfold strip.
  destruct (rstrip_prefix (lstrip s)) as [w Hw].
  apply contains_prefix with (w := w); [discriminate |].
  rewrite <- Hw. now apply contains_lstrip.
Qed.

Lemma lstrip_all_space (ws s : str) :
  all_space ws = true -> lstrip (ws ++ s) = lstrip s.
Proof.
  induction ws as [|c ws IH]; [reflexivity |].
  cbn [all_space forallb app lstrip]. intros H.
  apply andb_true_iff in H as [-> H]. now apply IH.
Qed.

Lemma all_space_rev (ws : str) : all_space (rev ws) = all_space ws.
Proof.
  unfold all_space. induction ws as [|c ws IH]; [reflexivity |].
  cbn [rev forallb]. rewrite forallb_app, IH. cbn [forallb].
  rewrite andb_true_r. apply andb_comm.
Qed.

Lemma rstrip_all_space (s ws : str) :
  all_space ws = true -> rstrip (s ++ ws) = rstrip s.
Proof.
  intros H. unfold rstrip. rewrite rev_app_distr, lstrip_all_space; [reflexivity |].
  now rewrite all_space_rev.
Qed.

Lemma strip_all_space (ws : str) : all_space ws = true -> strip ws = [].
Proof.
  intros H. unfold strip.
  rewrite <- (app_nil_r ws), (lstrip_all_space ws [] H). reflexivity.
Qed.

End Deletion_facts.

(** X6.  The sanitized reply never starts and never ends with whitespace,
    whatever the model answered. *)
Theorem X6_sanitized_has_no_outer_whitespace (raw : str) :
  starts_with_space (sanitize raw) = false
  /\ ends_with_space (sanitize raw) = false.
Proof. unfold sanitize. split; [apply strip_starts | apply strip_ends]. Qed.

(** X7.  Sanitization only deletes: the result is the reply with some
    characters left out, the others in their order; so it is never longer
    than the reply. *)
Theorem X7_sanitize_only_deletes (raw : str) :
  subsequence (sanitize raw) raw /\ length (sanitize raw) <= length raw.
Proof.
  assert (H : subsequence (sanitize raw) raw).
  { unfold sanitize, sub.
    apply subsequence_trans with (b := sub_from fence_re [] None (strip raw) 0);
      [apply strip_subsequence |].
    apply subsequence_trans with (b := strip raw);
      [apply sub_from_subsequence | apply strip_subsequence]. }
  split; [exact H | now apply subsequence_length].
Qed.

(** X8.  A reply that holds no fence marker is only trimmed: everything
    between its first and last non-blank character is passed through,
    single and double backticks included. *)
Theorem X8_reply_without_fence_is_trimmed (raw : str) :
  contains fence raw = false -> sanitize raw = strip raw.
Proof.
  intros H. unfold sanitize.
  rewrite (sub_without_fence _ (contains_strip _ H)). apply strip_strip.
Qed.

Lemma X8_inline_code_witness :
  contains fence (lit "  Use `Q` or ``Q()`` here. ") = false
  /\ sanitize (lit "  Use `Q` or ``Q()`` here. ")
     = lit "Use `Q` or ``Q()`` here.".
Proof.
  split; [reflexivity |].
  rewrite (X8_reply_without_fence_is_trimmed
             (lit "  Use `Q` or ``Q()`` here. ") eq_refl).
  reflexivity.
Defined.

(* ================================================================== *)
(** * Replies wrapped in a fence, and fences inside a line *)
(* ================================================================== *)

Section Wrapped_replies.

Lemma ws_run_all_space (ws : str) (y : char) (r : str) :
  all_space ws = true -> isspace y = false -> ws_run (ws ++ y :: r) = length ws.
Proof.
  intros H Hy. induction ws as [|c ws IH]; cbn [app ws_run length].
  - now rewrite Hy.
  - cbn [all_space forallb] in H. apply andb_true_iff in H as [-> H].
    f_equal. now apply IH.
Qed.

Lemma lstrip_to_text (ws : str) (y : char) (r : str) :
  all_space ws = true -> isspace y = false -> lstrip (ws ++ y :: r) = y :: r.
Proof.
  intros H Hy. rewrite (lstrip_all_space _ _ H). cbn [lstrip]. now rewrite Hy.
Qed.

(** A prefix that is not found is not found either once more text follows,
    if that text starts with a character the prefix does not use. *)
Lemma strip_prefix_app_none (p u : str) (y : char) (v : str) :
  strip_prefix p u = None -> existsb (N.eqb y) p = false ->
  strip_prefix p (u ++ y :: v) = None.
Proof.
  revert u. induction p as [|x p IH]; intros u Hu Hy; [discriminate |].
  cbn [existsb] in Hy. apply orb_false_iff in Hy as [Hyx Hy].
  destruct u as [|z u]; cbn [app strip_prefix] in *.
  - rewrite N.eqb_sym, Hyx. reflexivity.
  - destruct (x =? z)%N; [now apply IH | reflexivity].
Qed.

Lemma space_not_in_tag (z : char) :
  isspace z = true -> existsb (N.eqb z) python_tag = false.
Proof.
  intros Hz. change python_tag with [112; 121; 116; 104; 111; 110]%N.
  cbn [existsb].
  repeat match goal with
         | |- context [(z =? ?n)%N] =>
           destruct (N.eqb_spec z n) as [E|_];
           [rewrite E in Hz; discriminate Hz |]
         end.
  reflexivity.
Qed.

Lemma sub_from_all_skipped (r : regex) (repl s : str) (b : option char) :
  sub_from r repl b s (length s) = [].
Proof.
  revert b. induction s as [|x s IH]; intros b; [reflexivity | apply IH].
Qed.

(** A match that covers all the text left removes it. *)
Lemma sub_from_whole_match (b : option char) (x : char) (t : str) :
  fence_match b (x :: t) = Some (S (length t)) ->
  sub_from fence_re [] b (x :: t) 0 = [].
Proof.
  intros H. rewrite sub_from_step, H. apply sub_from_all_skipped.
Qed.

Lemma fence_match_closing_tail (b : option char) (ws : str) :
  all_space ws = true ->
  fence_match b (ws ++ fence) = Some (length (ws ++ fence)).
Proof.
  intros H. destruct ws as [|z ws].
  - unfold fence_match, open_fence, close_fence. now destruct (bol b).
  - assert (Hz : isspace z = true).
    { cbn [all_space forallb] in H. now apply andb_true_iff in H as [Hz _]. }
    unfold fence_match, open_fence, close_fence.
    rewrite (fence_not_after_space ((z :: ws) ++ fence) Hz).
    rewrite (lstrip_to_text _ backtick [backtick; backtick] H isspace_backtick
             : lstrip ((z :: ws) ++ fence) = fence).
    rewrite (ws_run_all_space _ backtick [backtick; backtick] H isspace_backtick
             : ws_run ((z :: ws) ++ fence) = length (z :: ws)).
    change (strip_prefix fence fence) with (Some (@nil char)).
    cbn [eol]. rewrite length_app. now destruct (bol b).
Qed.

Lemma sub_from_closing_tail (b : option char) (ws : str) :
  all_space ws = true -> sub_from fence_re [] b (ws ++ fence) 0 = [].
Proof.
  intros H. pose proof (fence_match_closing_tail b ws H) as Hm.
  destruct ws as [|z ws].
  - exact (sub_from_whole_match b backtick [backtick; backtick] Hm).
  - exact (sub_from_whole_match b z (ws ++ fence) Hm).
Qed.

Lemma fence_match_opening_head (tagged : bool) (ws : str) (y : char) (rest : str) :
  all_space ws = true -> isspace y = false ->
  (tagged = false -> strip_prefix python_tag (ws ++ y :: rest) = None) ->
  fence_match None (fence ++ (if tagged then python_tag else []) ++ ws ++ y :: rest)
  = Some (S (length ([backtick; backtick] ++ (if tagged then python_tag else [])
                       ++ ws))).
Proof.
  intros H Hy Htag. unfold fence_match, open_fence. cbn [bol].
  rewrite strip_prefix_app. destruct tagged.
  - rewrite strip_prefix_app, (ws_run_all_space _ _ _ H Hy).
    rewrite !length_app. reflexivity.
  - cbn [app]. rewrite (Htag eq_refl), (ws_run_all_space _ _ _ H Hy). reflexivity.
Qed.

(** The substitution pass over a reply that is one fenced block leaves the
    block. *)
Lemma sub_wrapped (tagged : bool) (ws2 block ws3 : str) :
  all_space ws2 = true -> plain block = true -> all_space ws3 = true ->
  (tagged = false -> strip_prefix python_tag (ws2 ++ block) = None) ->
  sub fence_re []
    (fence ++ (if tagged then python_tag else []) ++ ws2 ++ block ++ ws3 ++ fence)
  = block.
Proof.
  intros H2 Hk H3 Htag.
  destruct (plain_inv _ Hk) as (y & k & -> & Hy & Hyb & Hkb & Hke).
  assert (Htag' : tagged = false ->
                  strip_prefix python_tag (ws2 ++ y :: k ++ ws3 ++ fence) = None).
  { intros E. specialize (Htag E).
    change (ws2 ++ y :: k ++ ws3 ++ fence) with (ws2 ++ (y :: k) ++ ws3 ++ fence).
    rewrite app_assoc.
    destruct ws3 as [|z ws3].
    - apply strip_prefix_app_none; [exact Htag | reflexivity].
    - apply strip_prefix_app_none; [exact Htag |].
      apply space_not_in_tag. cbn [all_space forallb] in H3.
      now apply andb_true_iff in H3 as [Hz _]. }
  unfold sub.
  change (fence ++ (if tagged then python_tag else []) ++ ws2 ++ (y :: k) ++ ws3 ++ fence)
    with (backtick :: [backtick; backtick] ++ (if tagged then python_tag else [])
                        ++ ws2 ++ y :: k ++ ws3 ++ fence).
  rewrite sub_from_step.
  change (backtick :: [backtick; backtick] ++ (if tagged then python_tag else [])
                        ++ ws2 ++ y :: k ++ ws3 ++ fence)
    with (fence ++ (if tagged then python_tag else []) ++ ws2 ++ y :: k ++ ws3 ++ fence).
  rewrite (fence_match_opening_head tagged ws2 y _ H2 Hy Htag').
  replace ([backtick; backtick] ++ (if tagged then python_tag else [])
             ++ ws2 ++ y :: k ++ ws3 ++ fence)
    with (([backtick; backtick] ++ (if tagged then python_tag else []) ++ ws2)
            ++ (y :: k) ++ ws3 ++ fence)
    by (rewrite <- !app_assoc; reflexivity).
  rewrite sub_from_skip, (sub_from_text _ _ _ Hkb Hke).
  rewrite (sub_from_closing_tail _ _ H3). apply app_nil_r.
Qed.

Lemma strip_wrapped (ws1 inner ws4 : str) :
  all_space ws1 = true -> all_space ws4 = true ->
  strip (ws1 ++ (fence ++ inner ++ fence) ++ ws4) = fence ++ inner ++ fence.
Proof.
  intros H1 H4. unfold strip.
  rewrite (lstrip_all_space _ _ H1).
  rewrite (lstrip_fixed ((fence ++ inner ++ fence) ++ ws4) eq_refl).
  rewrite (rstrip_all_space _ _ H4).
  apply rstrip_fixed. unfold ends_with_space.
  rewrite !last_or_app_gen. reflexivity.
Qed.

Lemma plain_strip (s : str) : plain s = true -> strip s = s.
Proof.
  intros H. destruct (plain_inv _ H) as (x & t & -> & Hx & _ & _ & He).
  now apply strip_fixed.
Qed.

Lemma sanitize_wrapped (tagged : bool) (ws1 ws2 block ws3 ws4 : str) :
  all_space ws1 = true -> all_space ws2 = true -> all_space ws3 = true ->
  all_space ws4 = true -> plain block = true ->
  (tagged = false -> strip_prefix python_tag (ws2 ++ block) = None) ->
  sanitize (wrapped_reply tagged ws1 ws2 block ws3 ws4) = block.
Proof.
  intros H1 H2 H3 H4 Hk Htag. unfold sanitize, wrapped_reply.
  replace (ws1 ++ fence ++ (if tagged then python_tag else []) ++ ws2 ++ block
               ++ ws3 ++ fence ++ ws4)
    with (ws1 ++ (fence ++ ((if tagged then python_tag else []) ++ ws2 ++ block
                              ++ ws3) ++ fence) ++ ws4)
    by (rewrite <- !app_assoc; reflexivity).
  rewrite (strip_wrapped _ _ _ H1 H4).
  replace (fence ++ ((if tagged then python_tag else []) ++ ws2 ++ block ++ ws3)
                 ++ fence)
    with (fence ++ (if tagged then python_tag else []) ++ ws2 ++ block ++ ws3 ++ fence)
    by (rewrite <- !app_assoc; reflexivity).
  rewrite (sub_wrapped tagged _ _ _ H2 Hk H3 Htag). now apply plain_strip.
Qed.

Lemma plain_lines (a b2 : str) :
  plain a = true -> plain b2 = true -> plain (a ++ LF :: b2) = true.
Proof.
  intros Ha Hb.
  destruct (plain_inv _ Ha) as (x & t & -> & Hx & _ & Hab & _).
  destruct (plain_inv _ Hb) as (y & w & -> & _ & _ & Hbb & Hbe).
  assert (Hno : existsb (N.eqb backtick) ((x :: t) ++ LF :: y :: w) = false).
  { rewrite existsb_app. apply orb_false_iff. split; [exact Hab |].
    cbn [existsb] in *. exact Hbb. }
  assert (Hend : ends_with_space ((x :: t) ++ LF :: y :: w) = false).
  { unfold ends_with_space in *. rewrite last_or_app_gen.
    cbn [last_or] in *. exact Hbe. }
  unfold plain. cbn [app] in *.
  apply andb_true_iff. split; [apply andb_true_iff; split |].
  - apply negb_true_iff. exact Hno.
  - apply negb_true_iff. exact Hx.
  - apply negb_true_iff. exact Hend.
Qed.

End Wrapped_replies.

(** X10.  A reply that is one fenced block and nothing else sanitizes to
    exactly the block, whatever whitespace (spaces, tabs, line breaks, or
    none) stands before the opening fence, after it, before the closing
    fence and after it.  The opening fence may carry the python tag; a bare
    one must not be followed directly by the word python. *)
Theorem X10_wrapped_reply_gives_block
  (tagged : bool) (ws1 ws2 block ws3 ws4 : str) :
  all_space ws1 = true -> all_space ws2 = true -> all_space ws3 = true ->
  all_space ws4 = true -> plain block = true ->
  (tagged = false -> strip_prefix python_tag (ws2 ++ block) = None) ->
  sanitize (wrapped_reply tagged ws1 ws2 block ws3 ws4) = block.
Proof.
  intros H1 H2 H3 H4 Hk Htag. now apply sanitize_wrapped.
Qed.

Lemma X10_wrapped_reply_witness :
  all_space (lit "  ") = true /\ all_space [LF] = true
  /\ all_space [32; LF]%N = true /\ all_space [LF; LF] = true
  /\ plain (lit "CandidateProfile.objects.filter(gender='female')") = true
  /\ sanitize (wrapped_reply true (lit "  ") [LF]
                 (lit "CandidateProfile.objects.filter(gender='female')")
                 [32; LF]%N [LF; LF])
     = lit "CandidateProfile.objects.filter(gender='female')".
Proof.
  do 5 (split; [reflexivity |]).
  apply (X10_wrapped_reply_gives_block true (lit "  ") [LF]
           (lit "CandidateProfile.objects.filter(gender='female')")
           [32; LF]%N [LF; LF] eq_refl eq_refl eq_refl eq_refl eq_refl).
  discriminate.
Defined.

(** X11.  Only the tag python is recognised.  A fenced block opened with any
    other language tag keeps that tag as the first line of the result. *)
Theorem X11_other_language_tag_is_kept (tag block : str) :
  plain tag = true -> strip_prefix python_tag tag = None ->
  plain block = true ->
  sanitize (fence ++ tag ++ LF :: block ++ LF :: fence) = tag ++ LF :: block.
Proof.
  intros Ht Hnp Hk.
  replace (fence ++ tag ++ LF :: block ++ LF :: fence)
    with (wrapped_reply false [] [] (tag ++ LF :: block) [LF] []).
  - apply sanitize_wrapped; try reflexivity.
    + now apply plain_lines.
    + intros _. cbn [app]. apply strip_prefix_app_none; [exact Hnp | reflexivity].
  - unfold wrapped_reply. cbn [app]. rewrite app_nil_r, <- app_assoc. reflexivity.
Qed.

Lemma X11_sql_tag_witness :
  plain (lit "sql") = true /\ strip_prefix python_tag (lit "sql") = None
  /\ plain (lit "SELECT 1") = true
  /\ sanitize (fence ++ lit "sql" ++ LF :: lit "SELECT 1" ++ LF :: fence)
     = lit "sql" ++ LF :: lit "SELECT 1".
Proof.
  do 3 (split; [reflexivity |]).
  apply (X11_other_language_tag_is_kept (lit "sql") (lit "SELECT 1")
           eq_refl eq_refl eq_refl).
Defined.

Section Fence_inside_a_line.

Lemma blanks_all_space (sp : str) : blanks sp = true -> all_space sp = true.
Proof.
  unfold blanks, all_space. induction sp as [|c sp IH]; [reflexivity |].
  cbn [forallb]. intros H. apply andb_true_iff in H as [Hc H].
  apply andb_true_iff in Hc as [-> _]. now apply IH.
Qed.

Lemma blanks_no_backtick (sp : str) :
  blanks sp = true -> existsb (N.eqb backtick) sp = false.
Proof.
  unfold blanks. induction sp as [|c sp IH]; [reflexivity |].
  cbn [forallb existsb]. intros H. apply andb_true_iff in H as [Hc H].
  apply andb_true_iff in Hc as [Hc _]. rewrite (IH H), orb_false_r.
  destruct (N.eqb_spec backtick c) as [<-|]; [| reflexivity].
  now rewrite isspace_backtick in Hc.
Qed.

(** After blanks and then text, the first character is neither a line break
    nor a backtick. *)
Lemma blanks_then_text (sp : str) (y : char) (w : str) :
  blanks sp = true -> isspace y = false -> (backtick =? y)%N = false ->
  exists y' r, sp ++ y :: w = y' :: r
               /\ (y' =? LF)%N = false /\ (backtick =? y')%N = false.
Proof.
  intros Hsp Hy Hyb. destruct sp as [|c sp].
  - exists y, w. repeat split; [now apply not_space_not_LF | exact Hyb].
  - exists c, (sp ++ y :: w).
    pose proof (blanks_no_backtick _ Hsp) as Hb.
    unfold blanks in Hsp. cbn [forallb existsb] in *.
    apply andb_true_iff in Hsp as [Hc _]. apply andb_true_iff in Hc as [_ Hc].
    apply orb_false_iff in Hb as [Hb _].
    repeat split; [now apply negb_true_iff in Hc | exact Hb].
Qed.

Lemma last_after_blanks (sp : str) (c : char) :
  blanks sp = true -> (c =? LF)%N = false ->
  exists c0, last_or (Some c) sp = Some c0 /\ (c0 =? LF)%N = false.
Proof.
  revert c. induction sp as [|z sp IH]; intros c Hsp Hc.
  - now exists c.
  - unfold blanks in Hsp. cbn [forallb] in Hsp.
    apply andb_true_iff in Hsp as [Hz Hsp]. apply andb_true_iff in Hz as [_ Hz].
    cbn [last_or]. apply IH; [exact Hsp | now apply negb_true_iff in Hz].
Qed.

(** Whitespace in front of a fence that does not end its line is copied. *)
Lemma sub_from_space_before_fence (sp r : str) (b : option char) :
  all_space sp = true -> eol r = false ->
  sub_from fence_re [] b (sp ++ fence ++ r) 0
  = sp ++ sub_from fence_re [] (last_or b sp) (fence ++ r) 0.
Proof.
  revert b. induction sp as [|z sp IH]; intros b Hsp Hr; [reflexivity |].
  assert (Hz : isspace z = true).
  { cbn [all_space forallb] in Hsp. now apply andb_true_iff in Hsp as [Hz _]. }
  assert (Hm : fence_match b ((z :: sp) ++ fence ++ r) = None).
  { unfold fence_match, open_fence, close_fence.
    rewrite (fence_not_after_space ((z :: sp) ++ fence ++ r) Hz).
    rewrite (lstrip_to_text _ backtick ([backtick; backtick] ++ r) Hsp
               isspace_backtick
             : lstrip ((z :: sp) ++ fence ++ r) = fence ++ r).
    rewrite strip_prefix_app, Hr. now destruct (bol b). }
  cbn [app] in *. rewrite sub_from_step, Hm. cbn [last_or]. f_equal.
  apply IH; [| exact Hr].
  cbn [all_space forallb] in Hsp. now apply andb_true_iff in Hsp as [_ H].
Qed.

(** A fence with text before it and after it on its line is copied. *)
Lemma sub_from_fence_inside_line (c y : char) (r : str) :
  (c =? LF)%N = false -> (y =? LF)%N = false -> (backtick =? y)%N = false ->
  sub_from fence_re [] (Some c) (fence ++ y :: r) 0
  = fence ++ sub_from fence_re [] (Some backtick) (y :: r) 0.
Proof.
  intros Hc Hy Hyb.
  assert (H0 : fence_match (Some c) (fence ++ y :: r) = None).
  { unfold fence_match, open_fence, close_fence. cbn [bol]. rewrite Hc.
    change (lstrip (fence ++ y :: r)) with (fence ++ y :: r).
    rewrite strip_prefix_app. cbn [eol]. now rewrite Hy. }
  assert (H1 : fence_match (Some backtick) (backtick :: backtick :: y :: r) = None).
  { unfold fence_match, open_fence, close_fence.
    change (bol (Some backtick)) with false.
    change (lstrip (backtick :: backtick :: y :: r))
      with (backtick :: backtick :: y :: r).
    unfold fence. cbn [strip_prefix]. rewrite !N.eqb_refl, Hyb. reflexivity. }
  assert (H2 : fence_match (Some backtick) (backtick :: y :: r) = None).
  { unfold fence_match, open_fence, close_fence.
    change (bol (Some backtick)) with false.
    change (lstrip (backtick :: y :: r)) with (backtick :: y :: r).
    unfold fence. cbn [strip_prefix]. rewrite !N.eqb_refl, Hyb. reflexivity. }
  change (fence ++ y :: r) with (backtick :: backtick :: backtick :: y :: r) in *.
  rewrite sub_from_step, H0, sub_from_step, H1, sub_from_step, H2. reflexivity.
Qed.

Lemma sub_fence_inside_line (before_it sp1 sp2 after_it : str) :
  plain before_it = true -> blanks sp1 = true -> blanks sp2 = true ->
  plain after_it = true ->
  sub fence_re [] (fence_inside_line before_it sp1 sp2 after_it)
  = fence_inside_line before_it sp1 sp2 after_it.
Proof.
  intros Ha H1 H2 Hw.
  destruct (plain_inv _ Ha) as (x & a & Ea & _ & _ & Hab & Hae).
  destruct (plain_inv _ Hw) as (y & w & -> & Hy & Hyb & Hwb & Hwe).
  assert (Hne : before_it <> []) by (rewrite Ea; discriminate).
  destruct (last_of_text None before_it Hne Hae) as (c & Hc & Hcs).
  destruct (last_after_blanks sp1 c H1 (not_space_not_LF _ Hcs))
    as (c0 & Hc0 & Hc0n).
  destruct (blanks_then_text sp2 y w H2 Hy Hyb) as (y' & r & Er & Hy'n & Hy'b).
  assert (Htail : existsb (N.eqb backtick) (sp2 ++ y :: w) = false
                  /\ ends_with_space (sp2 ++ y :: w) = false).
  { split.
    - rewrite existsb_app. apply orb_false_iff.
      split; [now apply blanks_no_backtick | exact Hwb].
    - unfold ends_with_space in *. rewrite last_or_app_gen.
      cbn [last_or] in *. exact Hwe. }
  destruct Htail as [Htb Hte].
  unfold sub, fence_inside_line.
  rewrite (sub_from_text _ _ _ Hab Hae), Hc.
  rewrite (sub_from_space_before_fence sp1 (sp2 ++ y :: w) (Some c)
             (blanks_all_space _ H1)
             ltac:(rewrite Er; cbn [eol]; exact Hy'n)).
  rewrite Hc0. rewrite Er at 1.
  rewrite (sub_from_fence_inside_line c0 y' r Hc0n Hy'n Hy'b).
  rewrite <- Er. rewrite <- (app_nil_r (sp2 ++ y :: w)) at 1.
  rewrite (sub_from_text _ _ _ Htb Hte).
  cbn [sub_from]. now rewrite !app_nil_r.
Qed.

End Fence_inside_a_line.

(** X13.  A fence marker that has text before it and after it on its own
    line, with or without blanks around it, is not a fence line: the reply
    comes back unchanged. *)
Theorem X13_fence_inside_a_line_is_kept (before_it sp1 sp2 after_it : str) :
  plain before_it = true -> blanks sp1 = true -> blanks sp2 = true ->
  plain after_it = true ->
  sanitize (fence_inside_line before_it sp1 sp2 after_it)
  = fence_inside_line before_it sp1 sp2 after_it.
Proof.
  intros Ha H1 H2 Hw.
  assert (Hs : strip (fence_inside_line before_it sp1 sp2 after_it)
               = fence_inside_line before_it sp1 sp2 after_it).
  { unfold fence_inside_line.
    replace (before_it ++ sp1 ++ fence ++ sp2 ++ after_it)
      with (before_it ++ (sp1 ++ fence ++ sp2) ++ after_it)
      by (rewrite <- !app_assoc; reflexivity).
    now apply strip_around_text. }
  unfold sanitize. rewrite Hs, (sub_fence_inside_line _ _ _ _ Ha H1 H2 Hw).
  exact Hs.
Qed.

Lemma X13_fence_inside_a_line_witness :
  plain (lit "Wrap it in") = true /\ blanks (lit " ") = true
  /\ blanks (lit " ") = true /\ plain (lit "marks") = true
  /\ sanitize (lit "Wrap it in ``` marks") = lit "Wrap it in ``` marks".
Proof.
  do 4 (split; [reflexivity |]).
  exact (X13_fence_inside_a_line_is_kept (lit "Wrap it in") (lit " ") (lit " ")
           (lit "marks") eq_refl eq_refl eq_refl eq_refl).
Defined.

Section Unbalanced_fences.

Lemma strip_between_space (ws1 inner ws4 : str) :
  all_space ws1 = true -> all_space ws4 = true ->
  starts_with_space inner = false -> ends_with_space inner = false ->
  strip (ws1 ++ inner ++ ws4) = inner.
Proof.
  intros H1 H4 Hs He. unfold strip.
  rewrite (lstrip_all_space _ _ H1).
  destruct inner as [|x inner].
  - cbn [app]. rewrite <- (app_nil_r ws4), (lstrip_all_space _ _ H4). reflexivity.
  - rewrite (lstrip_fixed ((x :: inner) ++ ws4) Hs).
    rewrite (rstrip_all_space _ _ H4). now apply rstrip_fixed.
Qed.

Lemma sub_opened (tagged : bool) (ws2 block : str) :
  all_space ws2 = true -> plain block = true ->
  (tagged = false -> strip_prefix python_tag (ws2 ++ block) = None) ->
  sub fence_re [] (fence ++ (if tagged then python_tag else []) ++ ws2 ++ block)
  = block.
Proof.
  intros H2 Hk Htag.
  destruct (plain_inv _ Hk) as (y & k & -> & Hy & Hyb & Hkb & Hke).
  unfold sub.
  change (fence ++ (if tagged then python_tag else []) ++ ws2 ++ y :: k)
    with (backtick :: [backtick; backtick] ++ (if tagged then python_tag else [])
                        ++ ws2 ++ y :: k).
  rewrite sub_from_step.
  change (backtick :: [backtick; backtick] ++ (if tagged then python_tag else [])
                        ++ ws2 ++ y :: k)
    with (fence ++ (if tagged then python_tag else []) ++ ws2 ++ y :: k).
  rewrite (fence_match_opening_head tagged ws2 y k H2 Hy Htag).
  replace ([backtick; backtick] ++ (if tagged then python_tag else [])
             ++ ws2 ++ y :: k)
    with (([backtick; backtick] ++ (if tagged then python_tag else []) ++ ws2)
            ++ (y :: k) ++ [])
    by (rewrite app_nil_r, <- !app_assoc; reflexivity).
  rewrite sub_from_skip, (sub_from_text _ _ _ Hkb Hke).
  cbn [sub_from]. apply app_nil_r.
Qed.

Lemma sub_closed (block ws3 : str) :
  plain block = true -> all_space ws3 = true ->
  sub fence_re [] (block ++ ws3 ++ fence) = block.
Proof.
  intros Hk H3.
  destruct (plain_inv _ Hk) as (y & k & -> & _ & _ & Hkb & Hke).
  unfold sub.
  rewrite (sub_from_text _ _ _ Hkb Hke), (sub_from_closing_tail _ _ H3).
  apply app_nil_r.
Qed.

End Unbalanced_fences.

(** X14.  A fence without its partner is removed all the same.  A reply that
    opens a fence (tagged python, or bare and not followed directly by the
    word python) and never closes it, as a reply cut off by the token bound
    does, sanitizes to the block; and so does a reply that only closes
    one. *)
Theorem X14_unbalanced_fence_is_removed
  (tagged : bool) (ws1 ws2 block ws3 ws4 : str) :
  all_space ws1 = true -> all_space ws2 = true -> all_space ws3 = true ->
  all_space ws4 = true -> plain block = true ->
  ((tagged = false -> strip_prefix python_tag (ws2 ++ block) = None) ->
   sanitize (opened_reply tagged ws1 ws2 block ws4) = block)
  /\ sanitize (closed_reply ws1 block ws3 ws4) = block.
Proof.
  intros H1 H2 H3 H4 Hk.
  destruct (plain_inv _ Hk) as (y & k & E & Hy & _ & _ & Hke).
  split.
  - intros Htag. unfold sanitize, opened_reply.
    replace (ws1 ++ fence ++ (if tagged then python_tag else []) ++ ws2 ++ block
                 ++ ws4)
      with (ws1 ++ (fence ++ (if tagged then python_tag else []) ++ ws2 ++ block)
                ++ ws4)
      by (rewrite <- !app_assoc; reflexivity).
    rewrite (strip_between_space _ _ _ H1 H4).
    + rewrite (sub_opened tagged _ _ H2 Hk Htag). now apply plain_strip.
    + reflexivity.
    + rewrite E in *. unfold ends_with_space in *.
      rewrite !last_or_app_gen. cbn [last_or] in *. exact Hke.
  - unfold sanitize, closed_reply.
    replace (ws1 ++ block ++ ws3 ++ fence ++ ws4)
      with (ws1 ++ (block ++ ws3 ++ fence) ++ ws4)
      by (rewrite <- !app_assoc; reflexivity).
    rewrite (strip_between_space _ _ _ H1 H4).
    + rewrite (sub_closed _ _ Hk H3). now apply plain_strip.
    + rewrite E. exact Hy.
    + unfold ends_with_space. rewrite !last_or_app_gen. reflexivity.
Qed.

Lemma X14_unbalanced_fence_witness :
  all_space [] = true /\ all_space [LF] = true
  /\ plain (lit "CandidateProfile.objects.filter(x=1)") = true
  /\ sanitize (opened_reply true [] [LF]
                 (lit "CandidateProfile.objects.filter(x=1)") [])
     = lit "CandidateProfile.objects.filter(x=1)"
  /\ sanitize (closed_reply [] (lit "CandidateProfile.objects.filter(x=1)")
                 [LF] [])
     = lit "CandidateProfile.objects.filter(x=1)".
Proof.
  do 3 (split; [reflexivity |]).
  pose proof (X14_unbalanced_fence_is_removed true [] [LF]
                (lit "CandidateProfile.objects.filter(x=1)") [LF] []
                eq_refl eq_refl eq_refl eq_refl eq_refl) as [Hopen Hclose].
  split; [| exact Hclose].
  apply Hopen. discriminate.
Defined.

(* ================================================================== *)
(** * The endpoint, case by case *)
(* ================================================================== *)

Section Endpoint_facts.

Lemma authorized_spec (SECRET backend_secret : option str) :
  authorized SECRET backend_secret = true
  <-> exists s, s <> [] /\ backend_secret = Some s /\ SECRET = Some s.
Proof.
  unfold authorized. split.
  - intros H. apply andb_true_iff in H as [Ht He].
    apply opt_eqb_eq in He. destruct backend_secret as [[|c s]|]; try discriminate.
    exists (c :: s). repeat split; [discriminate | now symmetry].
  - intros (s & Hne & -> & ->). destruct s as [|c s]; [congruence |].
    cbn [truthy andb]. apply opt_eqb_refl.
Qed.

(** The handler either rejects, or does what the orchestrator does and wraps
    its result. *)
Lemma generate_cases (SECRET : option str) (orchestrator : str -> M str)
  (req : QueryRequest) (backend_secret : option str) (w : traffic) :
  generate SECRET orchestrator req backend_secret w
  = if authorized SECRET backend_secret
    then match orchestrator (query req) w with
         | (inl e, w') => (inl e, w')
         | (inr result, w') => (inr (MkQueryResponse result), w')
         end
    else (inl invalid_credentials, w).
Proof.
  unfold generate, authorized, bind.
  destruct (truthy backend_secret); cbn [negb orb andb]; [| reflexivity].
  destruct (opt_eqb backend_secret SECRET); cbn [negb]; [| reflexivity].
  destruct (orchestrator (query req) w) as [[e | result] w']; reflexivity.
Qed.

(** The orchestrator fails at once when the client cannot be built;
    otherwise it sends its one request and then depends on the answer
    only. *)
Lemma orchestrator_cases (getenv : string -> option str) (provider : provider_t)
  (user_query : str) (w : traffic) :
  generate_filters_with_ai getenv provider user_query w
  = if can_build_client getenv
    then (match provider w (request_for getenv user_query) with
          | inl e => inl e
          | inr response =>
            match choices response with
            | [] => inl IndexError
            | first :: _ =>
              match content (message first) with
              | None => inl AttributeError
              | Some raw => inr (sanitize raw)
              end
            end
          end,
          w ++ [request_for getenv user_query])
    else (inl OpenAIError, w).
Proof.
  unfold generate_filters_with_ai, can_build_client, new_AIService,
    new_AsyncOpenAI, run_chat, chat, bind, send, lift, request_for.
  destruct (getenv "AI_API_KEY"%string), (getenv "OPENAI_API_KEY"%string);
    try reflexivity;
    cbn [keyword_clash existsb model_name];
    (destruct (provider w _) as [e | response]; [reflexivity |];
     destruct (choices response) as [|first others]; [reflexivity |];
     destruct (content (message first)); reflexivity).
Qed.

End Endpoint_facts.

(** X1.  The handler answers with a response only to a caller that sent a
    non-empty header equal to the configured secret; and that response
    carries what the orchestrator returned for the query of the request. *)
Theorem X1_response_only_for_the_secret
  (SECRET : option str) (orchestrator : str -> M str) (req : QueryRequest)
  (backend_secret : option str) (w w' : traffic) (resp : QueryResponse) :
  generate SECRET orchestrator req backend_secret w = (inr resp, w') ->
  (exists s, s <> [] /\ backend_secret = Some s /\ SECRET = Some s)
  /\ orchestrator (query req) w = (inr (orm resp), w').
Proof.
  rewrite generate_cases.
  destruct (authorized SECRET backend_secret) eqn:Ha; [| discriminate].
  intros H. split; [now apply authorized_spec |].
  destruct (orchestrator (query req) w) as [[e | result] w0]; [discriminate |].
  now inversion H.
Qed.

Lemma X1_response_witness :
  generate (Some (lit "s3cret"))
    (generate_filters_with_ai Sample.environment Sample.answering)
    (MkQueryRequest Sample.question) (Some (lit "s3cret")) []
  = (inr (MkQueryResponse (lit "CandidateProfile.objects.filter(x=1)")),
     [request_for Sample.environment Sample.question])
  /\ exists s, s <> [] /\ Some (lit "s3cret") = Some s
               /\ Some (lit "s3cret") = Some s.
Proof.
  assert (H : generate (Some (lit "s3cret"))
                (generate_filters_with_ai Sample.environment Sample.answering)
                (MkQueryRequest Sample.question) (Some (lit "s3cret")) []
              = (inr (MkQueryResponse (lit "CandidateProfile.objects.filter(x=1)")),
                 [request_for Sample.environment Sample.question])).
  { vm_compute. reflexivity. }
  split; [exact H |].
  exact (proj1 (X1_response_only_for_the_secret _ _ _ _ _ _ _ H)).
Defined.

(** X2.  One request to the endpoint causes at most one call of the
    provider client: none when the caller is rejected or the client cannot
    be built, and exactly the call built for the query when the caller is
    let in and the client is built, whether the provider then answers or
    fails. *)
Theorem X2_endpoint_traffic
  (getenv : string -> option str) (provider : provider_t)
  (req : QueryRequest) (backend_secret : option str) (w : traffic) :
  snd (post_api_generate getenv provider req backend_secret w)
  = if authorized (getenv "BACKEND_SECRET"%string) backend_secret
       && can_build_client getenv
    then w ++ [request_for getenv (query req)]
    else w.
Proof.
  unfold post_api_generate. rewrite generate_cases, orchestrator_cases.
  destruct (authorized _ backend_secret); [| reflexivity].
  destruct (can_build_client getenv); [| reflexivity]. cbn [andb].
  destruct (provider w _) as [e | response]; [reflexivity |].
  destruct (choices response) as [|first others]; [reflexivity |].
  destruct (content (message first)); reflexivity.
Qed.



(** X4.  When the client is built and the provider answers without any
    candidate, reading the first one fails: the orchestrator raises
    [IndexError] after its one call, and the endpoint passes that on to a
    caller it let in. *)
Theorem X4_answer_without_candidates
  (getenv : string -> option str) (provider : provider_t)
  (req : QueryRequest) (backend_secret : option str) (w : traffic)
  (response : chat_completion) :
  can_build_client getenv = true ->
  provider w (request_for getenv (query req)) = inr response ->
  choices response = [] ->
  generate_filters_with_ai getenv provider (query req) w
  = (inl IndexError, w ++ [request_for getenv (query req)])
  /\ (authorized (getenv "BACKEND_SECRET"%string) backend_secret = true ->
      post_api_generate getenv provider req backend_secret w
      = (inl IndexError, w ++ [request_for getenv (query req)])).
Proof.
  intros Hb Hp Hc.
  assert (H : generate_filters_with_ai getenv provider (query req) w
              = (inl IndexError, w ++ [request_for getenv (query req)])).
  { now rewrite orchestrator_cases, Hb, Hp, Hc. }
  split; [exact H |].
  intros Ha. unfold post_api_generate. now rewrite generate_cases, Ha, H.
Qed.

Lemma X4_no_candidates_witness :
  can_build_client Sample.environment = true
  /\ answering_without_candidates []
       (request_for Sample.environment (query (MkQueryRequest Sample.question)))
     = inr (ChatCompletion [])
  /\ choices (ChatCompletion []) = []
  /\ authorized (Sample.environment "BACKEND_SECRET") (Some (lit "s3cret")) = true
  /\ post_api_generate Sample.environment answering_without_candidates
       (MkQueryRequest Sample.question) (Some (lit "s3cret")) []
     = (inl IndexError,
        [] ++ [request_for Sample.environment
                 (query (MkQueryRequest Sample.question))]).
Proof.
  do 4 (split; [reflexivity |]).
  exact (proj2 (X4_answer_without_candidates Sample.environment
                  answering_without_candidates (MkQueryRequest Sample.question)
                  (Some (lit "s3cret")) [] (ChatCompletion [])
                  eq_refl eq_refl eq_refl)
               eq_refl).
Defined.

(** X5.  Every successful response of the running application comes from a
    provider answer: the provider returned at least one candidate, the
    first one carried text, the field [orm] is that text sanitized, and the
    traffic grew by the one request built for the query. *)
Theorem X5_success_comes_from_the_first_candidate
  (getenv : string -> option str) (provider : provider_t)
  (req : QueryRequest) (backend_secret : option str) (w w' : traffic)
  (resp : QueryResponse) :
  post_api_generate getenv provider req backend_secret w = (inr resp, w') ->
  exists response first others raw,
    provider w (request_for getenv (query req)) = inr response
    /\ choices response = first :: others
    /\ content (message first) = Some raw
    /\ orm resp = sanitize raw
    /\ w' = w ++ [request_for getenv (query req)].
Proof.
  unfold post_api_generate. rewrite generate_cases, orchestrator_cases.
  destruct (authorized _ backend_secret); [| discriminate].
  destruct (can_build_client getenv); [| discriminate].
  destruct (provider w _) as [e | response]; [discriminate |].
  destruct (choices response) as [|first others] eqn:Hc; [discriminate |].
  destruct (content (message first)) as [raw|] eqn:Hraw; [| discriminate].
  intros [= <- <-]. now exists response, first, others, raw.
Qed.

Lemma X5_success_witness :
  post_api_generate Sample.environment Sample.answering
    (MkQueryRequest Sample.question) (Some (lit "s3cret")) []
  = (inr (MkQueryResponse (lit "CandidateProfile.objects.filter(x=1)")),
     [request_for Sample.environment Sample.question])
  /\ exists response first others raw,
       Sample.answering []
         (request_for Sample.environment (query (MkQueryRequest Sample.question)))
       = inr response
       /\ choices response = first :: others
       /\ content (message first) = Some raw
       /\ orm (MkQueryResponse (lit "CandidateProfile.objects.filter(x=1)"))
          = sanitize raw
       /\ [request_for Sample.environment Sample.question]
          = [] ++ [request_for Sample.environment
                     (query (MkQueryRequest Sample.question))].
Proof.
  assert (H : post_api_generate Sample.environment Sample.answering
                (MkQueryRequest Sample.question) (Some (lit "s3cret")) []
              = (inr (MkQueryResponse (lit "CandidateProfile.objects.filter(x=1)")),
                 [request_for Sample.environment Sample.question])).
  { vm_compute. reflexivity. }
  split; [exact H |].
  exact (X5_success_comes_from_the_first_candidate _ _ _ _ _ _ _ H).
Defined.

(** X9.  A blank answer is not an error: when the client is built and the
    first candidate holds only whitespace, or nothing, a caller that is let
    in receives a successful response whose [orm] is the empty text. *)
Theorem X9_blank_answer_gives_empty_orm
  (getenv : string -> option str) (provider : provider_t)
  (req : QueryRequest) (backend_secret : option str) (w : traffic)
  (response : chat_completion) (first : choice) (others : list choice)
  (raw : str) :
  authorized (getenv "BACKEND_SECRET"%string) backend_secret = true ->
  can_build_client getenv = true ->
  provider w (request_for getenv (query req)) = inr response ->
  choices response = first :: others ->
  content (message first) = Some raw ->
  all_space raw = true ->
  post_api_generate getenv provider req backend_secret w
  = (inr (MkQueryResponse []), w ++ [request_for getenv (query req)]).
Proof.
  intros Ha Hb Hp Hc Hraw Hws.
  unfold post_api_generate.
  rewrite generate_cases, Ha, orchestrator_cases, Hb, Hp, Hc, Hraw.
  unfold sanitize. rewrite (strip_all_space _ Hws). reflexivity.
Qed.

Lemma X9_blank_answer_witness :
  authorized (Sample.environment "BACKEND_SECRET") (Some (lit "s3cret")) = true
  /\ can_build_client Sample.environment = true
  /\ all_space (lit "   ") = true
  /\ post_api_generate Sample.environment answering_blank
       (MkQueryRequest Sample.question) (Some (lit "s3cret")) []
     = (inr (MkQueryResponse []),
        [] ++ [request_for Sample.environment
                 (query (MkQueryRequest Sample.question))]).
Proof.
  do 3 (split; [reflexivity |]).
  exact (X9_blank_answer_gives_empty_orm Sample.environment answering_blank
           (MkQueryRequest Sample.question) (Some (lit "s3cret")) []
           (ChatCompletion [Choice (ChatMessage (Some (lit "   ")))])
           (Choice (ChatMessage (Some (lit "   ")))) [] (lit "   ")
           eq_refl eq_refl eq_refl eq_refl eq_refl eq_refl).
Defined.

(** X12.  Distinct queries give distinct prompts: the prompt determines the
    query it was built for. *)
Theorem X12_distinct_queries_distinct_prompts (Q1 Q2 : str) :
  Q1 <> Q2 -> prompt Q1 <> prompt Q2.
Proof.
  intros Hne H. apply Hne. revert H.
  unfold prompt, fstring. cbn [map render concat].
  generalize text_before_query text_after_query. intros before_q after_q H.
  apply app_inv_head in H. apply app_inv_tail in H. exact H.
Qed.

Lemma X12_distinct_prompts_witness :
  lit "male candidates" <> lit "female candidates"
  /\ prompt (lit "male candidates") <> prompt (lit "female candidates").
Proof.
  assert (H : lit "male candidates" <> lit "female candidates").
  { intros E. vm_compute in E. discriminate E. }
  split; [exact H |].
  exact (X12_distinct_queries_distinct_prompts _ _ H).
Defined.

(* ================================================================== *)
(** * Which markers the substitution pass deletes *)
(* ================================================================== *)

Section Deleted_markers.

(** The pass is: delete the flagged characters. *)
Lemma sub_from_remove (r : regex) (s : str) (b : option char) (k : nat) :
  sub_from r [] b s k = remove (deleted_from r b s k) s.
Proof.
  revert b k. induction s as [|x t IH]; intros b k; [reflexivity |].
  cbn [sub_from deleted_from]. destruct k as [|k]; [| apply IH].
  destruct (match_at r b (x :: t)) as [[|n]|]; cbn [remove app];
    rewrite IH; reflexivity.
Qed.

Lemma deleted_from_step (b : option char) (x : char) (t : str) :
  deleted_from fence_re b (x :: t) 0 =
  match fence_match b (x :: t) with
  | Some (S k) => true :: deleted_from fence_re (Some x) t k
  | _ => false :: deleted_from fence_re (Some x) t 0
  end.
Proof. cbn [deleted_from]. now rewrite match_at_fence. Qed.

Lemma deleted_from_skip (r : regex) (a c : str) (b : option char) (k : nat) :
  deleted_from r b (a ++ c) (length a + k)
  = repeat true (length a) ++ deleted_from r (last_or b a) c k.
Proof.
  revert b. induction a as [|x a IH]; intros b; [reflexivity |].
  cbn [app length Nat.add deleted_from repeat last_or]. f_equal. apply IH.
Qed.

Lemma strip_prefix_some (p s r : str) :
  strip_prefix p s = Some r -> s = p ++ r.
Proof.
  revert s. induction p as [|x p IH]; intros s; cbn [strip_prefix].
  - now intros [= ->].
  - destruct s as [|y s]; [discriminate |].
    destruct (N.eqb_spec x y) as [->|]; [| discriminate].
    intros H. cbn [app]. f_equal. now apply IH.
Qed.

Lemma ws_split (s : str) :
  exists ws, s = ws ++ lstrip s /\ all_space ws = true /\ length ws = ws_run s.
Proof.
  induction s as [|c s (ws & Hs & Ha & Hl)]; [now exists [] |].
  cbn [lstrip ws_run]. destruct (isspace c) eqn:E; [| now exists []].
  exists (c :: ws). cbn [app all_space forallb length].
  rewrite E, <- Hs, Hl. repeat split. exact Ha.
Qed.

(** What a match at one position looks like. *)
Lemma fence_match_shape (b : option char) (s : str) (n : nat) :
  fence_match b s = Some n ->
  (bol b = true
   /\ exists tag ws r,
        s = fence ++ tag ++ ws ++ r /\ (tag = [] \/ tag = python_tag)
        /\ all_space ws = true /\ n = 3 + length tag + length ws)
  \/ (exists ws r,
        s = ws ++ fence ++ r /\ all_space ws = true /\ eol r = true
        /\ n = length ws + 3).
Proof.
  unfold fence_match. destruct (open_fence b s) as [m|] eqn:Eo.
  - intros [= <-]. left. unfold open_fence in Eo.
    destruct (bol b); [| discriminate]. split; [reflexivity |].
    destruct (strip_prefix fence s) as [r|] eqn:Ef; [| discriminate].
    apply strip_prefix_some in Ef.
    destruct (strip_prefix python_tag r) as [r'|] eqn:Et.
    + apply strip_prefix_some in Et. injection Eo as <-.
      destruct (ws_split r') as (ws & Hr & Ha & Hl).
      exists python_tag, ws, (lstrip r'). rewrite <- Hr, <- Et, Hl.
      repeat split; [exact Ef | now right | exact Ha].
    + injection Eo as <-.
      destruct (ws_split r) as (ws & Hr & Ha & Hl).
      exists [], ws, (lstrip r). cbn [app length]. rewrite <- Hr, Hl.
      repeat split; [exact Ef | now left | exact Ha].
  - intros Hc. right. unfold close_fence in Hc.
    destruct (strip_prefix fence (lstrip s)) as [r|] eqn:Ef; [| discriminate].
    apply strip_prefix_some in Ef.
    destruct (eol r) eqn:Er; [| discriminate]. injection Hc as <-.
    destruct (ws_split s) as (ws & Hs & Ha & Hl).
    exists ws, r. rewrite <- Ef, <- Hs, Hl. repeat split; assumption.
Qed.

Lemma all_space_no_backtick (ws : str) :
  all_space ws = true -> ~ In backtick ws.
Proof.
  unfold all_space. intros H Hin.
  rewrite forallb_forall in H. specialize (H _ Hin).
  now rewrite isspace_backtick in H.
Qed.

Lemma tag_and_space_no_backtick (tag ws : str) :
  tag = [] \/ tag = python_tag -> all_space ws = true ->
  ~ In backtick (tag ++ ws).
Proof.
  intros Ht Hw Hin. apply in_app_or in Hin as [Hin | Hin].
  - destruct Ht as [-> | ->]; [exact Hin |].
    vm_compute in Hin. intuition discriminate.
  - exact (all_space_no_backtick _ Hw Hin).
Qed.

Lemma short_ticks_one : short_ticks [backtick] = true.
Proof. reflexivity. Qed.

Lemma short_ticks_two : short_ticks [backtick; backtick] = true.
Proof. reflexivity. Qed.

(** A match that starts in the text before a marker ends before the marker,
    or is the closing match that ends with it. *)
Lemma match_before_marker (b : option char) (x : char) (u v : str) (n : nat) :
  negb (bol b && short_ticks (x :: u)) = true ->
  fence_match b ((x :: u) ++ fence ++ v) = Some n ->
  n <= length (x :: u) \/ (n = length (x :: u) + 3 /\ eol v = true).
Proof.
  intros Hfree Hm.
  destruct (fence_match_shape _ _ _ Hm)
    as [(Hb & tag & ws & r & Hs & Ht & Hw & ->)
       | (ws & r & Hs & Hw & Hr & ->)].
  - (* the opening alternative *)
    left. rewrite Hb in Hfree. cbn [andb] in Hfree.
    apply negb_true_iff in Hfree.
    pose proof (tag_and_space_no_backtick tag ws Ht Hw) as Hno.
    assert (Hs' : (fence ++ tag ++ ws) ++ r = (x :: u) ++ fence ++ v)
      by (rewrite <- !app_assoc; symmetry; exact Hs).
    apply app_eq_app in Hs' as [l [[Hl Hv] | [Hl Hv]]].
    + destruct l as [|y l].
      * rewrite app_nil_r in Hl. rewrite <- Hl, !length_app. cbn. lia.
      * exfalso.
        assert (Hy : y = backtick) by (cbn in Hv; now injection Hv).
        subst y. cbn [app] in Hl, Hv.
        unfold fence in Hl, Hv. cbn [app] in Hl, Hv.
        destruct u as [|x2 [|x3 u3]]; cbn [app] in Hl;
          inversion Hl; subst; clear Hl; cbn [app] in Hv.
        -- destruct (tag ++ ws) as [|c tw] eqn:Etw.
           ++ now rewrite short_ticks_one in Hfree.
           ++ cbn [app] in Hv. inversion Hv; subst.
              apply Hno. now left.
        -- destruct (tag ++ ws) as [|c tw] eqn:Etw.
           ++ now rewrite short_ticks_two in Hfree.
           ++ cbn [app] in Hv. inversion Hv; subst.
              apply Hno. now left.
        -- apply Hno.
           match goal with
           | H : tag ++ ws = _ |- _ => rewrite H
           end.
           apply in_or_app. right. now left.
    + rewrite Hl, !length_app. cbn. lia.
  - (* the closing alternative *)
    apply app_eq_app in Hs as [l [[Hl Hv] | [Hl Hv]]].
    + (* the text before the marker is longer than the whitespace *)
      unfold fence in Hv.
      destruct l as [|y1 [|y2 [|y3 l]]]; cbn [app] in Hv.
      * right. rewrite app_nil_r in Hl. inversion Hv; subst.
        now split.
      * exfalso. inversion Hv; subst. discriminate Hr.
      * exfalso. inversion Hv; subst. discriminate Hr.
      * left. rewrite Hl, length_app. cbn. lia.
    + (* the whitespace reaches the marker or goes past it *)
      unfold fence in Hv.
      destruct l as [|y l]; cbn [app] in Hv.
      * right. rewrite app_nil_r in Hl. inversion Hv; subst.
        now split.
      * exfalso. inversion Hv; subst.
        apply (all_space_no_backtick _ Hw).
        apply in_or_app. right. now left.
Qed.

(** How the scan reaches a marker: not inside a match, or in the closing
    match that ends with the marker. *)
Lemma scan_reaches_marker (u v : str) (b : option char) (skip : nat) :
  overlap_free b u = true ->
  skip <= length u \/ (skip = length u + 3 /\ eol v = true) ->
  exists front,
    length front = length u
    /\ (deleted_from fence_re b (u ++ fence ++ v) skip
        = front ++ deleted_from fence_re (last_or b u) (fence ++ v) 0
        \/ (eol v = true
            /\ deleted_from fence_re b (u ++ fence ++ v) skip
               = front ++ repeat true 3
                   ++ deleted_from fence_re (Some backtick) v 0)).
Proof.
  revert b skip. induction u as [|x u IH]; intros b skip Hfree Hskip.
  - exists []. split; [reflexivity |].
    destruct Hskip as [Hskip | [-> Hv]].
    + left. cbn [length] in Hskip. now replace skip with 0 by lia.
    + right. split; [exact Hv | reflexivity].
  - cbn [overlap_free] in Hfree. apply andb_true_iff in Hfree as [Hx Hfree].
    assert (Hnext : forall k,
               k <= length u \/ (k = length u + 3 /\ eol v = true) ->
               forall flag,
               exists front,
                 length front = length (x :: u)
                 /\ (flag :: deleted_from fence_re (Some x) (u ++ fence ++ v) k
                     = front ++ deleted_from fence_re (last_or b (x :: u))
                                  (fence ++ v) 0
                     \/ (eol v = true
                         /\ flag :: deleted_from fence_re (Some x)
                                      (u ++ fence ++ v) k
                            = front ++ repeat true 3
                                ++ deleted_from fence_re (Some backtick) v 0))).
    { intros k Hk flag.
      destruct (IH (Some x) k Hfree Hk) as (front & Hlen & H).
      exists (flag :: front). split; [cbn [length]; now rewrite Hlen |].
      cbn [app last_or].
      destruct H as [-> | [Hv ->]]; [now left | right; now split]. }
    cbn [app]. destruct skip as [|k].
    + rewrite deleted_from_step.
      destruct (fence_match b (x :: u ++ fence ++ v)) as [[|k]|] eqn:Hm.
      * apply Hnext. left. lia.
      * apply Hnext.
        destruct (match_before_marker b x u v (S k) Hx Hm) as [H | [H Hv]].
        -- left. cbn [length] in H. lia.
        -- right. cbn [length] in H. split; [lia | exact Hv].
      * apply Hnext. left. lia.
    + cbn [deleted_from]. apply Hnext.
      destruct Hskip as [H | [H Hv]]; cbn [length] in H.
      * left. lia.
      * right. split; [lia | exact Hv].
Qed.

Lemma short_ticks_last (b : option char) (u : str) :
  short_ticks u = true -> last_or b u = Some backtick.
Proof.
  unfold short_ticks. intros H. apply orb_true_iff in H as [H | H];
    apply str_eqb_eq in H; subst; reflexivity.
Qed.

(** Before a marker that starts a line, nothing can overlap it. *)
Lemma line_start_overlap_free (b : option char) (u : str) :
  u <> [] -> bol (last_or b u) = true -> overlap_free b u = true.
Proof.
  revert b. induction u as [|x u IH]; intros b Hne Hb; [congruence |].
  cbn [overlap_free]. apply andb_true_iff. split.
  - destruct (short_ticks (x :: u)) eqn:E; [| now rewrite andb_false_r].
    rewrite (short_ticks_last b _ E) in Hb. discriminate Hb.
  - destruct u as [|y u]; [reflexivity |].
    apply IH; [discriminate | exact Hb].
Qed.

(** At a marker that starts a line the opening alternative matches, tag
    included. *)
Lemma open_fence_at_marker (b : option char) (v : str) :
  bol b = true ->
  exists k, fence_match b (fence ++ v) = Some (3 + k)
            /\ forall v', v = python_tag ++ v' -> 6 <= k.
Proof.
  intros Hb. unfold fence_match, open_fence. rewrite Hb, strip_prefix_app.
  destruct (strip_prefix python_tag v) as [r|] eqn:E.
  - exists (6 + ws_run r). split; [reflexivity | intros; lia].
  - exists (ws_run v). split; [reflexivity |].
    intros v' ->. now rewrite strip_prefix_app in E.
Qed.

Lemma close_fence_at_marker (b : option char) (v : str) :
  bol b = false -> eol v = true -> fence_match b (fence ++ v) = Some 3.
Proof.
  intros Hb Hv. unfold fence_match, open_fence, close_fence. rewrite Hb.
  change (lstrip (fence ++ v)) with (fence ++ v).
  change (ws_run (fence ++ v)) with 0.
  now rewrite strip_prefix_app, Hv.
Qed.

(** Flags of a match of [3 + k] characters that starts at the marker. *)
Lemma deleted_from_marker (b : option char) (v : str) (k : nat) :
  fence_match b (fence ++ v) = Some (3 + k) ->
  exists back,
    deleted_from fence_re b (fence ++ v) 0 = repeat true 3 ++ back
    /\ forall v', v = python_tag ++ v' -> 6 <= k ->
                  exists back', back = repeat true 6 ++ back'.
Proof.
  intros Hm.
  change (fence ++ v) with (backtick :: [backtick; backtick] ++ v) in *.
  rewrite deleted_from_step, Hm.
  change (3 + k) with (S (length [backtick; backtick] + k)). cbv iota.
  rewrite deleted_from_skip.
  exists (deleted_from fence_re (last_or (Some backtick) [backtick; backtick]) v k).
  split; [reflexivity |].
  intros v' -> Hk.
  replace k with (length python_tag + (k - 6))
    by (change (length python_tag) with 6; lia).
  rewrite deleted_from_skip. eexists. reflexivity.
Qed.

(** Every marker that starts or ends a line, and is not overlapped by the
    marker that starts its line, is deleted whole. *)
Lemma marker_deleted (u v : str) :
  overlap_free None u = true ->
  bol (last_or None u) = true \/ eol v = true ->
  covered (deleted fence_re (u ++ fence ++ v)) (length u) 3.
Proof.
  intros Hfree Hline. unfold covered, deleted.
  destruct (scan_reaches_marker u v None 0 Hfree (or_introl (Nat.le_0_l _)))
    as (front & Hlen & [H | [_ H]]).
  - assert (Hm : exists k, fence_match (last_or None u) (fence ++ v) = Some (3 + k)).
    { destruct (bol (last_or None u)) eqn:Hb.
      - destruct (open_fence_at_marker _ v Hb) as (k & Hk & _). now exists k.
      - destruct Hline as [Hl | Hv]; [discriminate |].
        exists 0. now apply close_fence_at_marker. }
    destruct Hm as (k & Hk).
    destruct (deleted_from_marker _ _ _ Hk) as (back & Hback & _).
    exists front, back. now rewrite H, Hback.
  - exists front. eexists. split; [exact H | exact Hlen].
Qed.

(** A marker that starts a line is deleted together with its python tag. *)
Lemma tagged_marker_deleted (u v : str) :
  bol (last_or None u) = true ->
  covered (deleted fence_re (u ++ fence ++ python_tag ++ v)) (length u) 9.
Proof.
  intros Hb. unfold covered, deleted.
  assert (Hfree : overlap_free None u = true).
  { destruct u as [|x u]; [reflexivity |].
    apply line_start_overlap_free; [discriminate | exact Hb]. }
  destruct (scan_reaches_marker u (python_tag ++ v) None 0 Hfree
              (or_introl (Nat.le_0_l _)))
    as (front & Hlen & [H | [Hv _]]); [| discriminate Hv].
  destruct (open_fence_at_marker _ (python_tag ++ v) Hb) as (k & Hk & Htag).
  destruct (deleted_from_marker _ _ _ Hk) as (back & Hback & Hmore).
  destruct (Hmore v eq_refl (Htag v eq_refl)) as (back' & ->).
  exists front, back'. split; [| exact Hlen].
  rewrite H, Hback. change 9 with (3 + 6). rewrite repeat_app, <- app_assoc.
  reflexivity.
Qed.

End Deleted_markers.

(** C10, as stated, fails: on a line of five backticks inside a reply, the
    marker that starts the line is deleted, and of the marker that ends
    the line two backticks are left. *)
Lemma C10_five_backticks_counterexample :
  sanitize (lit "x" ++ LF :: lit "`````" ++ LF :: lit "y")
  = lit "x" ++ LF :: lit "``" ++ LF :: lit "y"
  /\ deleted fence_re (lit "x" ++ LF :: lit "`````" ++ LF :: lit "y")
     = [false; false; true; true; true; false; false; false; false].
Proof. split; vm_compute; reflexivity. Qed.

(** C10, amended.  The pattern works line by line, in one substitution pass
    over the trimmed reply that is followed by the final trim.  In that
    pass, for every place of a fence marker in the subject: a marker that
    starts a line (nothing or a line break stands before it) is deleted,
    and with it the python tag when one follows directly; a marker that
    ends a line (nothing or a line break stands after it) is deleted
    unless it begins one or two backticks after the start of its line.
    This holds wherever the line is and however many markers the reply
    holds. *)
Theorem C10_line_markers_deleted (raw u v : str) :
  sanitize raw = strip (remove (deleted fence_re (strip raw)) (strip raw))
  /\ (bol (last_or None u) = true ->
      covered (deleted fence_re (u ++ fence ++ v)) (length u) 3
      /\ covered (deleted fence_re (u ++ fence ++ python_tag ++ v))
                 (length u) 9)
  /\ (eol v = true -> overlap_free None u = true ->
      covered (deleted fence_re (u ++ fence ++ v)) (length u) 3).
Proof.
  split; [| split].
  - unfold sanitize, sub, deleted. now rewrite sub_from_remove.
  - intros Hb. split; [| now apply tagged_marker_deleted].
    apply marker_deleted; [| now left].
    destruct u as [|x u]; [reflexivity |].
    apply line_start_overlap_free; [discriminate | exact Hb].
  - intros Hv Hfree. apply marker_deleted; [exact Hfree | now right].
Qed.

Lemma C10_two_blocks_witness :
  bol (last_or None reply_head) = true
  /\ covered (deleted fence_re two_blocks_reply) (length reply_head) 9
  /\ eol reply_tail = true
  /\ overlap_free None (reply_head ++ fence ++ python_tag ++ reply_middle) = true
  /\ covered (deleted fence_re
                ((reply_head ++ fence ++ python_tag ++ reply_middle)
                   ++ fence ++ reply_tail))
             (length (reply_head ++ fence ++ python_tag ++ reply_middle)) 3
  /\ sanitize two_blocks_reply
     = lit "Use `Q`:" ++ LF :: lit "A" ++ LF :: lit "or" ++ LF :: lit "B"
         ++ LF :: lit "done".
Proof.
  split; [reflexivity |]. split.
  - exact (proj2 (proj1 (proj2 (C10_line_markers_deleted [] reply_head
                                  (reply_middle ++ fence ++ reply_tail)))
                        eq_refl)).
  - split; [reflexivity |]. split; [reflexivity |]. split.
    + exact (proj2 (proj2 (C10_line_markers_deleted []
                             (reply_head ++ fence ++ python_tag ++ reply_middle)
                             reply_tail))
                   eq_refl eq_refl).
    + vm_compute. reflexivity.
Defined.
